(** * CordovaProject.ts: a shallow embedding and its verified properties

  The module wraps the [cordova] command line tool: every method builds a
  command, spawns it, buffers its standard output and settles a Q deferred.
  The embedding follows src/CordovaProject.ts function by function.

  Strings are [string]s whose characters stand for the code units
  U+0000..U+00FF of a JavaScript string. *)

From Stdlib Require Import String Ascii List ZArith Bool Arith Lia.
Import ListNotations.

Local Open Scope list_scope.
Local Open Scope string_scope.

(** ** JavaScript string primitives used by the source *)

Module JS.

(** [s.substring(n)], for [n] within the string or past its end. *)
Fixpoint substring_from (n : nat) (s : string) : string :=
  match n, s with
  | O, _ => s
  | S _, EmptyString => EmptyString
  | S n', String _ s' => substring_from n' s'
  end.

(** [hay.indexOf(needle)] scanning from position [pos]: the first position
    where [needle] is a prefix, or -1. *)
Fixpoint indexOf_from (hay needle : string) (pos : Z) : Z :=
  if prefix needle hay then pos
  else match hay with
       | EmptyString => (-1)%Z
       | String _ hay' => indexOf_from hay' needle (pos + 1)
       end.

Definition indexOf (hay needle : string) : Z := indexOf_from hay needle 0.

(** [s.split(sep)] for a one-character separator: always at least one
    piece, and a trailing separator leaves a trailing empty piece. *)
Fixpoint split (sep : ascii) (s : string) : list string :=
  match s with
  | EmptyString => [EmptyString]
  | String c s' =>
      if Ascii.eqb c sep then EmptyString :: split sep s'
      else match split sep s' with
           | [] => [String c EmptyString]
           | piece :: rest => String c piece :: rest
           end
  end.

(** [arr.join(sep)]. *)
Fixpoint join (sep : string) (arr : list string) : string :=
  match arr with
  | [] => EmptyString
  | [x] => x
  | x :: rest => x ++ sep ++ join sep rest
  end.

(** White space in the sense of [\s] and of [String.prototype.trim], among
    the code units below 256: TAB, LF, VT, FF, CR, SP and NBSP. *)
Definition is_whitespace (c : ascii) : bool :=
  let n := nat_of_ascii c in
  (((9 <=? n) && (n <=? 13)) || (n =? 32) || (n =? 160))%nat.

(** Line terminators, which [.] of a regular expression refuses. *)
Definition is_line_terminator (c : ascii) : bool :=
  let n := nat_of_ascii c in
  ((n =? 10) || (n =? 13))%nat.

Fixpoint trim_start (s : string) : string :=
  match s with
  | EmptyString => EmptyString
  | String c s' => if is_whitespace c then trim_start s' else s
  end.

(** Removes trailing white space: a character is dropped when everything
    from it to the end is white space. *)
Fixpoint trim_end (s : string) : string :=
  match s with
  | EmptyString => EmptyString
  | String c s' =>
      match trim_end s' with
      | EmptyString => if is_whitespace c then EmptyString
                       else String c EmptyString
      | t => String c t
      end
  end.

Definition trim (s : string) : string := trim_end (trim_start s).

(** [s.match(/\S/g)] is truthy exactly when some character is not white
    space. *)
Fixpoint has_non_whitespace (s : string) : bool :=
  match s with
  | EmptyString => false
  | String c s' => negb (is_whitespace c) || has_non_whitespace s'
  end.

(** Truthiness of a string value: only the empty string is falsy. *)
Definition truthy (s : string) : bool :=
  match s with EmptyString => false | _ => true end.

(** [s.split(/\s+/g)]: pieces between maximal runs of white space. [cur] is
    the piece being read, [in_run] tells whether the previous character
    belonged to a separator. *)
Fixpoint split_ws_from (s cur : string) (in_run : bool) : list string :=
  match s with
  | EmptyString => [cur]
  | String c s' =>
      if is_whitespace c then
        if in_run then split_ws_from s' cur true
        else cur :: split_ws_from s' EmptyString true
      else split_ws_from s' (cur ++ String c EmptyString) false
  end.

Definition split_ws (s : string) : list string :=
  split_ws_from s EmptyString false.

End JS.

(** ** Q deferreds

  [Q.defer()] gives a deferred whose promise is pending. The first call of
  [resolve] or [reject] settles it; Q documents every later call as a
  no-op. The record keeps, next to the promise state, the calls the code
  made, so that a discarded call stays visible. *)

Module Q.

Inductive promise (A E : Type) : Type :=
| Pending
| Fulfilled (value : A)
| Rejected (reason : E).
Arguments Pending {A E}.
Arguments Fulfilled {A E} value.
Arguments Rejected {A E} reason.

Inductive call (A E : Type) : Type :=
| CallResolve (value : A)
| CallReject (reason : E).
Arguments CallResolve {A E} value.
Arguments CallReject {A E} reason.

Record deferred (A E : Type) : Type := mkDeferred {
  state : promise A E;
  calls : list (call A E)
}.
Arguments mkDeferred {A E} state calls.
Arguments state {A E} d.
Arguments calls {A E} d.

Definition defer {A E : Type} : deferred A E := mkDeferred Pending [].

Definition settle {A E : Type} (p : promise A E) (now : promise A E)
  : promise A E :=
  match now with
  | Pending => p
  | _ => now
  end.

Definition resolve {A E : Type} (v : A) (d : deferred A E) : deferred A E :=
  mkDeferred (settle (Fulfilled v) (state d)) (calls d ++ [CallResolve v]).

Definition reject {A E : Type} (e : E) (d : deferred A E) : deferred A E :=
  mkDeferred (settle (Rejected e) (state d)) (calls d ++ [CallReject e]).

(** [p.then(f)] with a fulfilment handler that returns a plain value and no
    rejection handler. *)
Definition then_ {A B E : Type} (p : promise A E) (f : A -> B)
  : promise B E :=
  match p with
  | Pending => Pending
  | Fulfilled v => Fulfilled (f v)
  | Rejected e => Rejected e
  end.

(** [p.then(onOk, onErr)] where both handlers forward to a second deferred,
    as [create] does with the promise of [open]. *)
Definition forward {A E : Type} (p : promise A E) (d : deferred A E)
  : deferred A E :=
  match p with
  | Pending => d
  | Fulfilled v => resolve v d
  | Rejected e => reject e d
  end.

Definition is_fulfilled {A E : Type} (p : promise A E) : bool :=
  match p with Fulfilled _ => true | _ => false end.

Definition is_rejected {A E : Type} (p : promise A E) : bool :=
  match p with Rejected _ => true | _ => false end.

End Q.

Import Q.

(** ** Data model (the interfaces at the top of the source) *)

Record CordovaProjectInfo : Type := mkProjectInfo {
  config : string;
  pluginNames : list string
}.

Record CordovaPluginInfo : Type := mkPluginInfo {
  plugin_id : string;
  plugin_version : string;
  plugin_name : string
}.

Record CordovaPlatformInfo : Type := mkPlatformInfo {
  platform_id : string;
  platform_version : string
}.

(** [statusCode] is the [code] of the child's exit event, which Node gives
    as a number, or as [null] when a signal ended the child. *)
Record CordovaActionResult : Type := mkActionResult {
  output : string;
  statusCode : option Z
}.

(** Optional members: [None] is an absent member, [Some false] a falsy one.
    An array, even an empty one, is truthy. Members that several interfaces
    share ([id], [version], [save], [link]) carry a prefix here, since
    record fields share one name space. *)
Record PluginAddOptions : Type := mkPluginAddOptions {
  searchPaths : option (list string);
  noRegistry : option bool;
  pa_link : option bool;
  pa_save : option bool;
  shrinkwrap : option bool;
  experimentalBrowserify : option bool
}.

Record ComponentRemoveOptions : Type := mkComponentRemoveOptions {
  cr_save : option bool
}.

Record PlatformAddOptions : Type := mkPlatformAddOptions {
  useGit : option bool;
  pl_save : option bool;
  pl_link : option bool
}.

(** The handle: a class with the single private member [_path]. *)
Record CordovaProject : Type := mkCordovaProject {
  _path : string
}.

Definition truthy_flag (o : option bool) : bool :=
  match o with Some b => b | None => false end.

Definition truthy_string (o : option string) : bool :=
  match o with Some s => JS.truthy s | None => false end.

(** ** The host: child processes, file system, platform *)

(** The error object of a child's ['error'] event. *)
Record spawn_error : Type := mkSpawnError {
  errno : string
}.

Inductive child_event : Type :=
| Data (text : string)
| Error (e : spawn_error)
| Exit (code : option Z) (signal : option string).

(** What the code passes to [reject]: a message, the raw error of a child,
    or the object [{ error: code, output: outBuffer }] of [create]. *)
Inductive reason : Type :=
| ReasonText (message : string)
| ReasonError (e : spawn_error)
| ReasonExit (error : option Z) (captured : string).

(** Everything the module reads from its surroundings: [process.platform],
    [process.cwd()], the events a spawned child emits (by file, arguments and
    working directory), [path.join], whether [fs.stat] reports an error for a
    path, and how many further events of a child are handled before the
    callback of an [fs.stat] under way is called. *)
Record Host : Type := mkHost {
  platform : string;
  cwd : string;
  spawn : string -> list string -> string -> list child_event;
  path_join : string -> string -> string;
  stat_err : string -> bool;
  stat_delay : nat
}.

Definition toUpperCase_char (c : ascii) : ascii :=
  let n := nat_of_ascii c in
  if ((97 <=? n) && (n <=? 122))%nat then ascii_of_nat (n - 32) else c.

(** [toUpperCase] on the letters a-z; the source only compares its result
    with ['WIN']. *)
Fixpoint toUpperCase (s : string) : string :=
  match s with
  | EmptyString => EmptyString
  | String c s' => String (toUpperCase_char c) (toUpperCase s')
  end.

(** The state the handlers of one child share: the output buffer, the
    deferred, and whether a handler threw (nothing catches it, so no later
    handler of the run is modelled as running). *)
Record child_state (A : Type) : Type := mkChildState {
  outBuffer : string;
  result : deferred A reason;
  thrown : bool
}.
Arguments mkChildState {A} outBuffer result thrown.
Arguments outBuffer {A} c.
Arguments result {A} c.
Arguments thrown {A} c.

Definition run_step {A : Type}
  (handle : child_state A -> child_event -> child_state A)
  (st : child_state A) (ev : child_event) : child_state A :=
  if thrown st then st else handle st ev.

Definition run_child {A : Type}
  (handle : child_state A -> child_event -> child_state A)
  (events : list child_event) : child_state A :=
  fold_left (run_step handle) events (mkChildState "" defer false).

Section Implementation.

Variable host : Host.

Definition isWindows : bool :=
  String.eqb (toUpperCase (substring 0 3 (platform host))) "WIN".

Definition safeSpawn (commandLine : string) (arguments : list string)
  (opt_cwd : string) : list child_event :=
  if isWindows then
    let arguments := commandLine :: arguments in
    let arguments := "/c" :: arguments in
    let arguments := "/s" :: arguments in
    spawn host "cmd" arguments opt_cwd
  else
    spawn host commandLine arguments opt_cwd.

(** *** open and create *)

Definition open (directoryName : string)
  : deferred CordovaProject reason :=
  let result := defer in
  let configxml := path_join host directoryName "config.xml" in
  let result :=
    if stat_err host configxml
    then reject (ReasonText "The selected path is not a Cordova application.")
                result
    else result in
  resolve (mkCordovaProject directoryName) result.

Definition create_args (name : string) (id title : option string)
  : list string :=
  let args := ["create"; name] in
  let args := if truthy_string id
              then (args ++ [match id with Some s => s | None => "" end])%list
              else args in
  let args := if truthy_string title
              then (args ++ [match title with Some s => s | None => "" end])%list
              else args in
  args.

(** The exit handler of [create] calls [open] on exit code 0 and settles
    nothing itself: the deferred of [create] is settled when the promise of
    [open] is, that is after the callback of [fs.stat]. Events of the child
    that arrive before that callback are handled first. The state of a call
    holds, next to the handlers' state, one counter per [open] under way: the
    number of child events still to be handled before its answer. *)
Record create_state : Type := mkCreateState {
  handlers : child_state CordovaProject;
  opening : list nat
}.

(** The two handlers that [create] passes to [then] on the promise of
    [open]: each forwards to the deferred of [create]. *)
Definition open_answered (name : string) (st : child_state CordovaProject)
  : child_state CordovaProject :=
  let dir := path_join host "." name in
  mkChildState (outBuffer st)
               (forward (state (open dir)) (result st))
               (thrown st).

(** The handlers of the child's events; the flag tells that [open] was
    called. *)
Definition create_handle (name : string) (st : child_state CordovaProject)
  (ev : child_event) : child_state CordovaProject * bool :=
  match ev with
  | Error e =>
      (mkChildState (outBuffer st) (reject (ReasonError e) (result st)) false,
       false)
  | Data text =>
      (mkChildState (outBuffer st ++ text) (result st) false, false)
  | Exit code signal =>
      match code with
      | Some 0%Z => (st, true)
      | _ =>
          (mkChildState (outBuffer st)
                        (reject (ReasonExit code (outBuffer st)) (result st))
                        false,
           false)
      end
  end.

Definition answers_due (opening : list nat) : nat :=
  List.length (filter (Nat.eqb 0) opening).

Definition still_waiting (opening : list nat) : list nat :=
  map Nat.pred (filter (fun n => negb (Nat.eqb 0 n)) opening).

(** One event of the child: the answers that are due come first, then the
    event's handler runs. *)
Definition create_step (name : string) (run : create_state)
  (ev : child_event) : create_state :=
  let st := Nat.iter (answers_due (opening run)) (open_answered name)
                     (handlers run) in
  let (st', opens) := create_handle name st ev in
  mkCreateState st'
    (still_waiting (opening run)
     ++ (if opens then [stat_delay host] else []))%list.

(** After the last event of the child the answers still under way arrive. *)
Definition create_finish (name : string) (run : create_state)
  : child_state CordovaProject :=
  Nat.iter (List.length (opening run)) (open_answered name) (handlers run).

Definition create_run (name : string) (events : list child_event)
  (run : create_state) : child_state CordovaProject :=
  create_finish name (fold_left (create_step name) events run).

Definition create (name : string) (id title : option string)
  : deferred CordovaProject reason :=
  let args := create_args name id title in
  let child := safeSpawn "cordova" args (cwd host) in
  result (create_run name child
            (mkCreateState (mkChildState "" defer false) [])).

(** *** Execution primitives *)

Definition spawn_cwd (workingDirectory : option string) : string :=
  if truthy_string workingDirectory
  then match workingDirectory with Some d => d | None => cwd host end
  else cwd host.

Definition void_handle (st : child_state CordovaActionResult)
  (ev : child_event) : child_state CordovaActionResult :=
  match ev with
  | Error e =>
      mkChildState (outBuffer st) (reject (ReasonError e) (result st)) false
  | Data text =>
      mkChildState (outBuffer st ++ text) (result st) false
  | Exit code signal =>
      match code with
      | Some 0%Z =>
          mkChildState (outBuffer st)
            (resolve (mkActionResult (outBuffer st) (Some 0%Z)) (result st))
            false
      | _ =>
          mkChildState (outBuffer st)
            (resolve (mkActionResult (outBuffer st) code) (result st))
            false
      end
  end.

(** [words.shift()] on the result of [split], which is never empty. *)
Definition shift (words : list string) : string * list string :=
  match words with
  | [] => ("", [])
  | w :: rest => (w, rest)
  end.

Definition wrapVoidAction (commandLine : string)
  (workingDirectory : option string)
  : deferred CordovaActionResult reason :=
  let words := JS.split_ws commandLine in
  let (command, words) := shift words in
  let child := safeSpawn command words (spawn_cwd workingDirectory) in
  result (run_child void_handle child).

(** The exit handler of [wrapStringAction] names its first parameter [e] and
    reads [e.code]. Node passes the exit code there: a number has no [code]
    member, so the test compares [undefined] with 0 and takes the second
    branch; on [null] the member access throws a TypeError. *)
Inductive js_value : Type :=
| JUndefined
| JNumber (z : Z).

Definition member_code (e : option Z) : option js_value :=
  match e with
  | Some _ => Some JUndefined
  | None => None
  end.

Definition strict_eq_zero (v : js_value) : bool :=
  match v with
  | JNumber z => (z =? 0)%Z
  | JUndefined => false
  end.

Definition string_handle (st : child_state string) (ev : child_event)
  : child_state string :=
  match ev with
  | Error e =>
      mkChildState (outBuffer st) (reject (ReasonError e) (result st)) false
  | Data text =>
      mkChildState (outBuffer st ++ text) (result st) false
  | Exit e signal =>
      match member_code e with
      | None => mkChildState (outBuffer st) (result st) true
      | Some v =>
          if strict_eq_zero v
          then mkChildState (outBuffer st)
                            (resolve (outBuffer st) (result st)) false
          else mkChildState (outBuffer st)
                            (resolve (outBuffer st) (result st)) false
      end
  end.

Definition wrapStringAction (commandLine : string)
  (workingDirectory : option string) : deferred string reason :=
  let words := JS.split_ws commandLine in
  let (command, words) := shift words in
  let child := safeSpawn command words (spawn_cwd workingDirectory) in
  result (run_child string_handle child).

(** *** Commands *)

Definition quote : ascii := "034"%char.
Definition newline : ascii := "010"%char.

Definition string_or_empty (o : option string) : string :=
  match o with Some s => s | None => "" end.

Definition platformCommand_cmd (commandName : string)
  (platform_ : option string) (args : option (list string)) : string :=
  let cmd := "cordova " ++ commandName ++ " " in
  let cmd := if truthy_string platform_
             then cmd ++ string_or_empty platform_ else cmd in
  let cmd := match args with
             | Some a => cmd ++ " " ++ JS.join " " a
             | None => cmd
             end in
  cmd.

Definition platformCommand (this : CordovaProject) (commandName : string)
  (platform_ : option string) (args : option (list string)) :=
  wrapVoidAction (platformCommand_cmd commandName platform_ args)
                 (Some (_path this)).

Definition prepare this p a := platformCommand this "prepare" p a.
Definition compile this p a := platformCommand this "compile" p a.
Definition build this p a := platformCommand this "build" p a.
Definition run this p a := platformCommand this "run" p a.
Definition emulate this p a := platformCommand this "emulate" p a.

Definition serve (this : CordovaProject) :=
  wrapVoidAction "cordova serve" (Some (_path this)).

Definition addPlugin_cmd (searchSpec : string)
  (options : option PluginAddOptions) : string :=
  let cmd := "cordova plugin add " ++ searchSpec in
  match options with
  | None => cmd
  | Some options =>
      let cmd :=
        match searchPaths options with
        | Some paths =>
            cmd ++ " --searchpath " ++ String quote ""
                ++ JS.join (if isWindows then ";" else ":") paths
        | None => cmd
        end in
      let cmd := if truthy_flag (noRegistry options)
                 then cmd ++ " --noregistry" else cmd in
      let cmd := if truthy_flag (pa_link options)
                 then cmd ++ " --link" else cmd in
      let cmd := if truthy_flag (pa_save options)
                 then cmd ++ " --save" else cmd in
      let cmd := if truthy_flag (shrinkwrap options)
                 then cmd ++ " --shrinkwrap" else cmd in
      let cmd := if truthy_flag (experimentalBrowserify options)
                 then cmd ++ " --browserify" else cmd in
      cmd
  end.

Definition addPlugin (this : CordovaProject) (searchSpec : string)
  (options : option PluginAddOptions) :=
  wrapVoidAction (addPlugin_cmd searchSpec options) (Some (_path this)).

Definition removePlugin_cmd (pluginId : string)
  (options : option ComponentRemoveOptions) : string :=
  let cmd := "cordova plugin remove " ++ pluginId in
  match options with
  | None => cmd
  | Some options =>
      if truthy_flag (cr_save options) then cmd ++ " --save" else cmd
  end.

Definition removePlugin (this : CordovaProject) (pluginId : string)
  (options : option ComponentRemoveOptions) :=
  wrapVoidAction (removePlugin_cmd pluginId options) (Some (_path this)).

Definition addPlatform_cmd (searchSpec : string)
  (options : option PlatformAddOptions) : string :=
  let cmd := "cordova platform add " ++ searchSpec in
  match options with
  | None => cmd
  | Some options =>
      let cmd := if truthy_flag (useGit options)
                 then cmd ++ " --usegit" else cmd in
      let cmd := if truthy_flag (pl_save options)
                 then cmd ++ " --save" else cmd in
      let cmd := if truthy_flag (pl_link options)
                 then cmd ++ " --link" else cmd in
      cmd
  end.

Definition addPlatform (this : CordovaProject) (searchSpec : string)
  (options : option PlatformAddOptions) :=
  wrapVoidAction (addPlatform_cmd searchSpec options) (Some (_path this)).

Definition removePlatform_cmd (name : string)
  (options : option ComponentRemoveOptions) : string :=
  let cmd := "cordova platform remove " ++ name in
  match options with
  | None => cmd
  | Some options =>
      if truthy_flag (cr_save options) then cmd ++ " --save" else cmd
  end.

Definition removePlatform (this : CordovaProject) (name : string)
  (options : option ComponentRemoveOptions) :=
  wrapVoidAction (removePlatform_cmd name options) (Some (_path this)).

Definition update_cmd (name : option string)
  (options : option PlatformAddOptions) : string :=
  let cmd := "cordova platform update" in
  let cmd := if truthy_string name
             then cmd ++ " " ++ string_or_empty name else cmd in
  match options with
  | None => cmd
  | Some options =>
      let cmd := if truthy_flag (useGit options)
                 then cmd ++ " --usegit" else cmd in
      let cmd := if truthy_flag (pl_save options)
                 then cmd ++ " --save" else cmd in
      cmd
  end.

Definition update (this : CordovaProject) (name : option string)
  (options : option PlatformAddOptions) :=
  wrapVoidAction (update_cmd name options) (Some (_path this)).

Definition checkForUpdates (this : CordovaProject)
  : deferred (list CordovaPlatformInfo) reason :=
  let result := defer in
  let result := reject (ReasonText "Not yet implemented.") result in
  result.

End Implementation.

(** ** Regular expressions of the source

    The two patterns of the source use literal characters, the lazy group
    [(.+?)] and the anchor [$]. A pattern is a list of such pieces; matching
    backtracks in the order ECMAScript prescribes: a lazy group first tries
    the fewest characters, and the search tries start positions from the
    left. *)

Inductive piece : Type :=
| Chr (c : ascii)
| LazyGroup
| EndOfInput.

(** [(.+?)] followed by the continuation [k]: takes one more character (no
    line terminator) at a time and asks [k] after each. [k] gets the text
    captured and the rest of the input. *)
Fixpoint lazy_dots {A : Type} (k : string -> string -> option A)
  (s taken : string) : option A :=
  match s with
  | EmptyString => None
  | String c s' =>
      if JS.is_line_terminator c then None
      else
        let taken := taken ++ String c "" in
        match k taken s' with
        | Some r => Some r
        | None => lazy_dots k s' taken
        end
  end.

(** Matches the pieces at the start of [s]; the result lists the captures
    (match[1], match[2], ...). *)
Fixpoint match_pieces (r : list piece) (s : string) (caps : list string)
  : option (list string) :=
  match r with
  | [] => Some caps
  | Chr c :: r' =>
      match s with
      | String c' s' =>
          if Ascii.eqb c c' then match_pieces r' s' caps else None
      | EmptyString => None
      end
  | EndOfInput :: r' =>
      match s with
      | EmptyString => match_pieces r' s caps
      | String _ _ => None
      end
  | LazyGroup :: r' =>
      lazy_dots (fun cap rest => match_pieces r' rest (caps ++ [cap])%list)
                s ""
  end.

(** [s.match(r)] for a pattern without flags: the leftmost start position
    that matches. *)
Fixpoint regex_match (r : list piece) (s : string) : option (list string) :=
  match match_pieces r s [] with
  | Some caps => Some caps
  | None =>
      match s with
      | EmptyString => None
      | String _ s' => regex_match r s'
      end
  end.

(** [/(.+?) (.+?) "(.+?)"$/] *)
Definition plugin_pattern : list piece :=
  [LazyGroup; Chr " "; LazyGroup; Chr " "; Chr quote; LazyGroup; Chr quote;
   EndOfInput].

(** [/(.+?) (.+?)$/] *)
Definition platform_pattern : list piece :=
  [LazyGroup; Chr " "; LazyGroup; EndOfInput].

(** ** Parsing the tool's output (the [then] callbacks) *)

(** First loop of [getInfo]: [lines] is what remains from index [i] on. At
    the [break] the index stays on the line that holds the closing tag, so
    that line is returned with the rest. *)
Fixpoint getInfo_xml (lines : list string) (xml : string)
  : string * list string :=
  match lines with
  | [] => (xml, [])
  | line :: rest =>
      let xml := xml ++ line in
      if (JS.indexOf line "</widget>" >? -1)%Z then (xml, lines)
      else getInfo_xml rest xml
  end.

(** Second loop of [getInfo], from the index the first loop left. *)
Fixpoint getInfo_plugins (lines : list string)
  (lookingForPluginsColon enumeratingPlugins : bool) (plugins : list string)
  : list string :=
  match lines with
  | [] => plugins
  | line :: rest =>
      if lookingForPluginsColon then
        if (JS.indexOf line "Plugins:" >? -1)%Z
        then getInfo_plugins rest false true plugins
        else getInfo_plugins rest lookingForPluginsColon enumeratingPlugins
                             plugins
      else if enumeratingPlugins then
        if JS.has_non_whitespace line
        then getInfo_plugins rest lookingForPluginsColon enumeratingPlugins
                             (plugins ++ [line])%list
        else getInfo_plugins rest lookingForPluginsColon enumeratingPlugins
                             plugins
      else getInfo_plugins rest lookingForPluginsColon enumeratingPlugins
                           plugins
  end.

Definition getInfo_then (result : string) : CordovaProjectInfo :=
  let lines := JS.split newline result in
  let (xml, remaining) := getInfo_xml lines "" in
  let plugins := getInfo_plugins remaining true false [] in
  mkProjectInfo xml plugins.

Definition getPlugins_item (plugins : list CordovaPluginInfo) (item : string)
  : list CordovaPluginInfo :=
  match regex_match plugin_pattern item with
  | Some m =>
      (plugins ++ [mkPluginInfo (nth 0 m "") (nth 1 m "") (nth 2 m "")])%list
  | None => plugins
  end.

Definition getPlugins_then (result : string) : list CordovaPluginInfo :=
  let plugins := [] in
  let lines := JS.split newline result in
  fold_left getPlugins_item lines plugins.

Definition getPlatforms_pair (installed : list CordovaPlatformInfo)
  (platformPair : string) : list CordovaPlatformInfo :=
  let platformPair := JS.trim platformPair in
  match regex_match platform_pattern platformPair with
  | Some m => (installed ++ [mkPlatformInfo (nth 0 m "") (nth 1 m "")])%list
  | None => installed
  end.

Definition getPlatforms_line (installed : list CordovaPlatformInfo)
  (line : string) : list CordovaPlatformInfo :=
  let searchStr := "Installed platforms: " in
  if (JS.indexOf line searchStr =? 0)%Z then
    let rest := JS.substring_from (String.length searchStr) line in
    let platformPairs := JS.split "," rest in
    fold_left getPlatforms_pair platformPairs installed
  else installed.

Definition getPlatforms_then (output : string) : list CordovaPlatformInfo :=
  let lines := JS.split newline output in
  let installed := [] in
  fold_left getPlatforms_line lines installed.

Section Queries.

Variable host : Host.

Definition getInfo (this : CordovaProject)
  : promise CordovaProjectInfo reason :=
  then_ (state (wrapStringAction host "cordova info" (Some (_path this))))
        getInfo_then.

Definition getPlugins (this : CordovaProject)
  : promise (list CordovaPluginInfo) reason :=
  then_ (state (wrapStringAction host "cordova plugin list"
                                 (Some (_path this))))
        getPlugins_then.

Definition getPlatforms (this : CordovaProject)
  : promise (list CordovaPlatformInfo) reason :=
  then_ (state (wrapStringAction host "cordova platform list"
                                 (Some (_path this))))
        getPlatforms_then.

End Queries.

(** ** Vocabulary of the statements *)

(** The standard output a child has produced: its chunks in arrival order,
    as [outBuffer += text] accumulates them. *)
Definition accumulated (chunks : list string) : string :=
  fold_left (fun buffer text => buffer ++ text) chunks "".

(** The child that [wrapVoidAction] and [wrapStringAction] spawn for a
    command line: both tokenize and spawn in the same way. *)
Definition spawned_child (host : Host) (commandLine : string)
  (workingDirectory : option string) : list child_event :=
  let (command, words) := shift (JS.split_ws commandLine) in
  safeSpawn host command words (spawn_cwd host workingDirectory).

(** The child that [create] spawns. *)
Definition create_child (host : Host) (name : string)
  (id title : option string) : list child_event :=
  safeSpawn host "cordova" (create_args name id title) (cwd host).

(** A list with the members of truthy options only. *)
Definition supplied (o : option string) : list string :=
  if truthy_string o then [string_or_empty o] else [].

(** The flags a command appends after its fixed part: a table pairs each
    option's truthiness with its flag, in the order of the source. *)
Definition selected (table : list (bool * string)) : list string :=
  map snd (filter fst table).

Definition concat_all (pieces : list string) : string :=
  fold_right append "" pieces.

Definition addPlugin_table (o : PluginAddOptions) : list (bool * string) :=
  [ (truthy_flag (noRegistry o), " --noregistry");
    (truthy_flag (pa_link o), " --link");
    (truthy_flag (pa_save o), " --save");
    (truthy_flag (shrinkwrap o), " --shrinkwrap");
    (truthy_flag (experimentalBrowserify o), " --browserify") ].

Definition remove_table (o : ComponentRemoveOptions) : list (bool * string) :=
  [ (truthy_flag (cr_save o), " --save") ].

Definition addPlatform_table (o : PlatformAddOptions)
  : list (bool * string) :=
  [ (truthy_flag (useGit o), " --usegit");
    (truthy_flag (pl_save o), " --save");
    (truthy_flag (pl_link o), " --link") ].

Definition update_table (o : PlatformAddOptions) : list (bool * string) :=
  [ (truthy_flag (useGit o), " --usegit");
    (truthy_flag (pl_save o), " --save") ].

(** The outcomes of [create] as the specification lists them, one per
    terminal event of the child: a handle on exit code 0, the exit code with
    the captured output on another code, the raw error on a spawn error. *)
Definition create_three_outcomes (host : Host) (name : string)
  (id title : option string) : Prop :=
  forall (chunks : list string) (terminal : child_event)
         (later : list child_event),
    create_child host name id title
    = (map Data chunks ++ terminal :: later)%list ->
    match terminal with
    | Exit (Some 0%Z) _ =>
        state (create host name id title)
        = Fulfilled (mkCordovaProject (path_join host "." name))
    | Exit code _ =>
        state (create host name id title)
        = Rejected (ReasonExit code (accumulated chunks))
    | Error e =>
        state (create host name id title) = Rejected (ReasonError e)
    | Data _ => True
    end.

(** What a present [searchPaths] option appends in [addPlugin]. *)
Definition searchpath_piece (host : Host) (paths : option (list string))
  : string :=
  match paths with
  | Some p =>
      " --searchpath " ++ String quote ""
        ++ JS.join (if isWindows host then ";" else ":") p
  | None => ""
  end.

(** Words of the specification about lines. *)
Definition has_widget_close (line : string) : bool :=
  (JS.indexOf line "</widget>" >? -1)%Z.

Definition has_plugins_marker (line : string) : bool :=
  (JS.indexOf line "Plugins:" >? -1)%Z.

(** The lines up to and including the first one that satisfies [P]; all of
    them when none does. *)
Fixpoint through_first (P : string -> bool) (lines : list string)
  : list string :=
  match lines with
  | [] => []
  | line :: rest => if P line then [line] else line :: through_first P rest
  end.

(** The lines from the first one that satisfies [P] on; none when no line
    does. *)
Fixpoint from_first (P : string -> bool) (lines : list string)
  : list string :=
  match lines with
  | [] => []
  | line :: rest => if P line then lines else from_first P rest
  end.

(** The lines that follow the first one that satisfies [P]. *)
Definition after_first (P : string -> bool) (lines : list string)
  : list string :=
  tl (from_first P lines).

Fixpoint has_char (c : ascii) (s : string) : bool :=
  match s with
  | EmptyString => false
  | String c' s' => Ascii.eqb c' c || has_char c s'
  end.

(** [part] occurs in [whole] as it is. *)
Definition occurs_in (part whole : string) : Prop :=
  exists before after : string, whole = before ++ part ++ after.

(** The record a line of the plugin list gives: one when the pattern
    matches, none otherwise. *)
Definition plugin_of_line (line : string) : list CordovaPluginInfo :=
  match regex_match plugin_pattern line with
  | Some m => [mkPluginInfo (nth 0 m "") (nth 1 m "") (nth 2 m "")]
  | None => []
  end.

Definition matches_plugin_pattern (line : string) : bool :=
  match regex_match plugin_pattern line with
  | Some _ => true
  | None => false
  end.

(** The record an entry of the platform line gives. *)
Definition platform_of_entry (entry : string) : list CordovaPlatformInfo :=
  match regex_match platform_pattern entry with
  | Some m => [mkPlatformInfo (nth 0 m "") (nth 1 m "")]
  | None => []
  end.

(** The records of one line of the platform list: for a line that begins
    with the marker, the remainder is split on commas and every entry is
    trimmed and parsed. *)
Definition platforms_of_line (line : string) : list CordovaPlatformInfo :=
  if prefix "Installed platforms: " line
  then flat_map (fun entry => platform_of_entry (JS.trim entry))
                (JS.split "," (JS.substring_from 21 line))
  else [].

(** Text that [.+] can take: no line terminator in it. *)
Fixpoint dot_text (s : string) : bool :=
  match s with
  | EmptyString => true
  | String c s' => negb (JS.is_line_terminator c) && dot_text s'
  end.

Fixpoint count_groups (r : list piece) : nat :=
  match r with
  | [] => 0
  | LazyGroup :: r' => S (count_groups r')
  | _ :: r' => count_groups r'
  end.

(** The line [<id> <version> "<name>"] of the plugin list, and what makes
    it well formed: three non-empty parts without line terminators, the
    first two without spaces. *)
Definition plugin_line (id version name : string) : string :=
  id ++ " " ++ version ++ " " ++ String quote (name ++ String quote "").

Definition well_formed_plugin (id version name : string) : bool :=
  JS.truthy id && JS.truthy version && JS.truthy name
  && negb (has_char " " id) && negb (has_char " " version)
  && dot_text id && dot_text version && dot_text name.

(** The entry [<id> <version>] of the platform line. *)
Definition platform_entry (id version : string) : string :=
  id ++ " " ++ version.

Definition well_formed_platform (id version : string) : bool :=
  JS.truthy id && JS.truthy version && negb (has_char " " id)
  && dot_text id && dot_text version.

(** ** Vocabulary of the further properties *)

Fixpoint no_whitespace (s : string) : bool :=
  match s with
  | EmptyString => true
  | String c s' => negb (JS.is_whitespace c) && no_whitespace s'
  end.

(** A word: a non-empty string without white space, which tokenization
    leaves in one piece. *)
Definition word (s : string) : bool := JS.truthy s && no_whitespace s.

Definition is_data (ev : child_event) : bool :=
  match ev with
  | Data _ => true
  | _ => false
  end.

(** The argument a truthy option contributes. *)
Definition flag (o : option bool) (name : string) : list string :=
  if truthy_flag o then [name] else [].

Definition searchpath_args (host : Host)
  (options : option PluginAddOptions) : list string :=
  match options with
  | Some o =>
      match searchPaths o with
      | Some paths =>
          ["--searchpath";
           String quote (JS.join (if isWindows host then ";" else ":") paths)]
      | None => []
      end
  | None => []
  end.

Definition addPlugin_flags (options : option PluginAddOptions)
  : list string :=
  match options with
  | Some o =>
      (flag (noRegistry o) "--noregistry" ++ flag (pa_link o) "--link"
       ++ flag (pa_save o) "--save" ++ flag (shrinkwrap o) "--shrinkwrap"
       ++ flag (experimentalBrowserify o) "--browserify")%list
  | None => []
  end.

Definition remove_flags (options : option ComponentRemoveOptions)
  : list string :=
  match options with
  | Some o => flag (cr_save o) "--save"
  | None => []
  end.

Definition addPlatform_flags (options : option PlatformAddOptions)
  : list string :=
  match options with
  | Some o =>
      (flag (useGit o) "--usegit" ++ flag (pl_save o) "--save"
       ++ flag (pl_link o) "--link")%list
  | None => []
  end.

Definition update_flags (options : option PlatformAddOptions)
  : list string :=
  match options with
  | Some o => (flag (useGit o) "--usegit" ++ flag (pl_save o) "--save")%list
  | None => []
  end.

(** The arguments that follow the verb of [platformCommand]: the platform
    when truthy, then the extra arguments; an empty string where the
    command line ends in a blank. *)
Definition platformCommand_args (platform_ : option string)
  (args : option (list string)) : list string :=
  (supplied platform_
   ++ match args with
      | Some (a :: l) => a :: l
      | Some [] => [""]
      | None => if truthy_string platform_ then [] else [""]
      end)%list.

Definition is_letter (lower upper c : ascii) : bool :=
  Ascii.eqb c lower || Ascii.eqb c upper.

(** An optional argument that is absent, empty or a word, and extra
    arguments that are all words. *)
Definition word_or_falsy (o : option string) : bool :=
  match o with
  | Some s => negb (JS.truthy s) || word s
  | None => true
  end.

Definition all_words (args : option (list string)) : bool :=
  match args with
  | Some l => forallb word l
  | None => true
  end.

(** The joined search paths hold no white space, where the option is
    present. *)
Definition searchpath_is_word (host : Host)
  (options : option PluginAddOptions) : bool :=
  match options with
  | Some o =>
      match searchPaths o with
      | Some paths =>
          no_whitespace (JS.join (if isWindows host then ";" else ":") paths)
      | None => true
      end
  | None => true
  end.

(** The last character of [s] is [c]. *)
Fixpoint ends_with (c : ascii) (s : string) : bool :=
  match s with
  | EmptyString => false
  | String x EmptyString => Ascii.eqb x c
  | String _ s' => ends_with c s'
  end.

Definition carriage_return : ascii := "013"%char.

(** The line that the tool prints for a plugin record, and the entry it
    prints for a platform record. *)
Definition plugin_line_of (p : CordovaPluginInfo) : string :=
  plugin_line (plugin_id p) (plugin_version p) (plugin_name p).

Definition well_formed_plugin_info (p : CordovaPluginInfo) : bool :=
  well_formed_plugin (plugin_id p) (plugin_version p) (plugin_name p).

Definition platform_entry_of (p : CordovaPlatformInfo) : string :=
  platform_entry (platform_id p) (platform_version p).

(** Id and version are words without commas. *)
Definition well_formed_platform_info (p : CordovaPlatformInfo) : bool :=
  word (platform_id p) && word (platform_version p)
  && negb (has_char "," (platform_id p))
  && negb (has_char "," (platform_version p)).

Definition installed_platforms_line (ps : list CordovaPlatformInfo)
  : string :=
  "Installed platforms: " ++ JS.join ", " (map platform_entry_of ps).

(** Events of the child that settle nothing in [create]: data, and an exit
    with code 0 (which only calls [open]). *)
Definition leaves_pending (ev : child_event) : bool :=
  match ev with
  | Data _ => true
  | Exit (Some 0%Z) _ => true
  | _ => false
  end.

(** The four outcomes of [create], and the one a settled promise shows. *)
Inductive create_outcome : Type :=
| Opened (proj : CordovaProject)
| NotACordovaProject
| CreationFailed (code : option Z) (captured : string)
| SpawnFailed (e : spawn_error).

Definition create_outcome_of (p : promise CordovaProject reason)
  : option create_outcome :=
  match p with
  | Pending => None
  | Fulfilled proj => Some (Opened proj)
  | Rejected (ReasonText message) =>
      if String.eqb message "The selected path is not a Cordova application."
      then Some NotACordovaProject
      else None
  | Rejected (ReasonExit code captured) => Some (CreationFailed code captured)
  | Rejected (ReasonError e) => Some (SpawnFailed e)
  end.

(** What the promise of [create] can hold for a name: nothing yet, the
    handle of the joined path with its descriptor file found, the message of
    [open], or a rejection made by the handlers of the child. *)
Definition create_promise_ok (host : Host) (name : string)
  (p : promise CordovaProject reason) : Prop :=
  match p with
  | Pending => True
  | Fulfilled proj =>
      proj = mkCordovaProject (path_join host "." name)
      /\ stat_err host (path_join host (path_join host "." name) "config.xml")
         = false
  | Rejected (ReasonText message) =>
      message = "The selected path is not a Cordova application."
  | Rejected _ => True
  end.

(** White space only; a first, and a last, character that is not white
    space. *)
Fixpoint all_whitespace (s : string) : bool :=
  match s with
  | EmptyString => true
  | String c s' => JS.is_whitespace c && all_whitespace s'
  end.

Definition starts_nonblank (s : string) : bool :=
  match s with
  | EmptyString => false
  | String c _ => negb (JS.is_whitespace c)
  end.

Fixpoint ends_nonblank (s : string) : bool :=
  match s with
  | EmptyString => false
  | String c EmptyString => negb (JS.is_whitespace c)
  | String _ s' => ends_nonblank s'
  end.

(** [s] without the occurrences of [c]. *)
Fixpoint remove_char (c : ascii) (s : string) : string :=
  match s with
  | EmptyString => EmptyString
  | String x s' =>
      if Ascii.eqb x c then remove_char c s' else String x (remove_char c s')
  end.

Definition no_newline (line : string) : Prop := has_char newline line = false.

(** ** Hosts to run the model on *)

(** [path.join] on the paths the hosts below meet: a first segment that is
    empty or a single dot is dropped, as [path.join('.', 'app')] is [app], and
    other segments are put together with a slash. *)
Definition join_with_slash (a b : string) : string :=
  if String.eqb a "" || String.eqb a "." then b else a ++ "/" ++ b.

(** A POSIX host whose tool prints two chunks and exits with 0, and whose
    file system holds no descriptor file anywhere. *)
Definition bare_host : Host :=
  mkHost "linux" "/home/dev"
         (fun _ _ _ => [Data "Creating "; Data "project"; Exit (Some 0%Z) None])
         join_with_slash
         (fun _ => true)
         0.

(** The same host with a descriptor file under every directory. *)
Definition project_host : Host :=
  mkHost "linux" "/home/dev"
         (fun _ _ _ => [Data "Creating "; Data "project"; Exit (Some 0%Z) None])
         join_with_slash
         (fun _ => false)
         0.

(** A host whose tool exits with status 1. *)
Definition failing_host : Host :=
  mkHost "linux" "/home/dev"
         (fun _ _ _ => [Data "Error: "; Data "path exists"; Exit (Some 1%Z) None])
         join_with_slash
         (fun _ => false)
         0.

(** A Windows host on which the tool cannot be spawned. *)
Definition toolless_host : Host :=
  mkHost "win32" "C:\dev"
         (fun _ _ _ => [Error (mkSpawnError "ENOENT")])
         join_with_slash
         (fun _ => false)
         0.

(** A host whose tool is ended by a signal before it exits. *)
Definition killed_host : Host :=
  mkHost "linux" "/home/dev"
         (fun _ _ _ => [Data "partial"; Exit None (Some "SIGTERM")])
         join_with_slash
         (fun _ => false)
         0.

(** A host whose tool keeps running: it prints and neither exits nor
    fails. *)
Definition hung_host : Host :=
  mkHost "linux" "/home/dev"
         (fun _ _ _ => [Data "Static file server running"; Data " on: 8000"])
         join_with_slash
         (fun _ => false)
         0.

(** A host on which the tool exits with 0 and an error event of the child
    follows before [fs.stat] has answered. *)
Definition racing_host : Host :=
  mkHost "linux" "/home/dev"
         (fun _ _ _ => [Data "Creating project"; Exit (Some 0%Z) None;
                        Data "."; Error (mkSpawnError "EPIPE")])
         join_with_slash
         (fun _ => false)
         2.

(** * Properties *)

(** ** Q deferreds settle once *)

Lemma settle_settled {A E : Type} (p now : promise A E) :
  now <> Pending -> settle p now = now.
Proof.
  destruct now; simpl; intros H; [contradiction H|..]; reflexivity.
Qed.

Lemma promise_pending_dec {A E : Type} (p : promise A E) :
  {p = Pending} + {p <> Pending}.
Proof. destruct p; [now left|right; discriminate|right; discriminate]. Qed.

Lemma resolve_after_settled {A E : Type} (v : A) (d : deferred A E) :
  state d <> Pending -> state (resolve v d) = state d.
Proof. intros H. simpl. now apply settle_settled. Qed.

Lemma reject_after_settled {A E : Type} (e : E) (d : deferred A E) :
  state d <> Pending -> state (reject e d) = state d.
Proof. intros H. simpl. now apply settle_settled. Qed.

(** ** checkForUpdates *)

(** C8: [checkForUpdates] rejects with the "not implemented" message for
    every handle, and its promise is never fulfilled with a value. *)
Theorem checkForUpdates_always_rejects (this : CordovaProject) :
  state (checkForUpdates this) = Rejected (ReasonText "Not yet implemented.")
  /\ is_fulfilled (state (checkForUpdates this)) = false
  /\ calls (checkForUpdates this)
     = [CallReject (ReasonText "Not yet implemented.")].
Proof. repeat split. Qed.

(** ** open *)

(** The source calls [reject] and then, with no [return] or [else] in
    between, [resolve]: both calls are made, and the deferred discards the
    second. *)
Lemma open_calls_without_descriptor (host : Host) (directoryName : string) :
  stat_err host (path_join host directoryName "config.xml") = true ->
  calls (open host directoryName)
  = [CallReject (ReasonText "The selected path is not a Cordova application.");
     CallResolve (mkCordovaProject directoryName)].
Proof. intros H. unfold open. rewrite H. reflexivity. Qed.

Lemma open_state (host : Host) (directoryName : string) :
  state (open host directoryName)
  = if stat_err host (path_join host directoryName "config.xml")
    then Rejected
           (ReasonText "The selected path is not a Cordova application.")
    else Fulfilled (mkCordovaProject directoryName).
Proof. unfold open. destruct (stat_err host _); reflexivity. Qed.

Lemma open_with_descriptor (host : Host) (directoryName : string) :
  stat_err host (path_join host directoryName "config.xml") = false ->
  state (open host directoryName)
  = Fulfilled (mkCordovaProject directoryName).
Proof. intros H. unfold open. rewrite H. reflexivity. Qed.

(** C1: when [fs.stat] reports an error for the descriptor file, the promise
    of [open] is rejected with the "not a Cordova application" message; it is
    not fulfilled, so no handle reaches the caller. *)
Theorem open_without_descriptor_rejects (host : Host)
  (directoryName : string) :
  stat_err host (path_join host directoryName "config.xml") = true ->
  state (open host directoryName)
  = Rejected (ReasonText "The selected path is not a Cordova application.")
  /\ is_rejected (state (open host directoryName)) = true
  /\ is_fulfilled (state (open host directoryName)) = false
  /\ (forall proj : CordovaProject,
        state (open host directoryName) <> Fulfilled proj).
Proof.
  intros H. unfold open. rewrite H. simpl.
  repeat split. intros proj Hp. discriminate Hp.
Qed.

Lemma open_without_descriptor_rejects_witness :
  stat_err bare_host (path_join bare_host "/tmp/empty" "config.xml") = true
  /\ state (open bare_host "/tmp/empty")
     = Rejected (ReasonText "The selected path is not a Cordova application.").
Proof.
  split; [reflexivity|].
  apply (open_without_descriptor_rejects bare_host "/tmp/empty").
  reflexivity.
Defined.

(** ** Running a child's events through the handlers *)

Section Runs.

Context {A : Type}.
Variable handle : child_state A -> child_event -> child_state A.

Hypothesis handle_data : forall st text,
  handle st (Data text) = mkChildState (outBuffer st ++ text) (result st) false.

Hypothesis handle_settled : forall st ev,
  state (result st) <> Pending ->
  state (result (handle st ev)) = state (result st).

Lemma run_data_from (chunks : list string) (buffer : string)
  (d : deferred A reason) :
  fold_left (run_step handle) (map Data chunks) (mkChildState buffer d false)
  = mkChildState (fold_left (fun b t => b ++ t) chunks buffer) d false.
Proof.
  revert buffer. induction chunks as [|text chunks IH]; intros buffer.
  - reflexivity.
  - simpl. unfold run_step at 2. simpl. rewrite handle_data. simpl. apply IH.
Qed.

Lemma run_settled_from (events : list child_event) (st : child_state A) :
  state (result st) <> Pending ->
  state (result (fold_left (run_step handle) events st)) = state (result st).
Proof.
  revert st. induction events as [|ev events IH]; intros st Hst.
  - reflexivity.
  - simpl. rewrite IH.
    + unfold run_step. destruct (thrown st); [reflexivity|].
      now apply handle_settled.
    + unfold run_step. destruct (thrown st); [assumption|].
      rewrite handle_settled; assumption.
Qed.

(** A run made of data chunks, one further event and anything after it: if
    that event settles the deferred, the promise keeps the state it got
    there, with the buffer holding the chunks before it. *)
Lemma run_child_terminal (chunks : list string) (ev : child_event)
  (later : list child_event) (p : promise A reason) :
  state (result (handle (mkChildState (accumulated chunks) defer false) ev))
  = p ->
  p <> Pending ->
  state (result (run_child handle (map Data chunks ++ ev :: later)%list)) = p.
Proof.
  intros Hev Hp. unfold run_child.
  rewrite fold_left_app, run_data_from. simpl.
  rewrite run_settled_from.
  - unfold run_step. simpl. exact Hev.
  - unfold run_step. simpl. fold (accumulated chunks). rewrite Hev. exact Hp.
Qed.

End Runs.

Lemma forward_settled {A E : Type} (p : promise A E) (d : deferred A E) :
  state d <> Pending -> state (forward p d) = state d.
Proof.
  intros H. destruct p; simpl; [reflexivity| |]; now apply settle_settled.
Qed.

Lemma void_handle_settled (st : child_state CordovaActionResult)
  (ev : child_event) :
  state (result st) <> Pending ->
  state (result (void_handle st ev)) = state (result st).
Proof.
  intros H. destruct ev as [text|e|[[|c|c]|] signal]; simpl;
    try reflexivity; now apply settle_settled.
Qed.

Lemma string_handle_settled (st : child_state string) (ev : child_event) :
  state (result st) <> Pending ->
  state (result (string_handle st ev)) = state (result st).
Proof.
  intros H. destruct ev as [text|e|[c|] signal]; simpl;
    try reflexivity; now apply settle_settled.
Qed.

Lemma wrapVoidAction_runs (host : Host) (commandLine : string)
  (workingDirectory : option string) :
  wrapVoidAction host commandLine workingDirectory
  = result (run_child void_handle
                      (spawned_child host commandLine workingDirectory)).
Proof.
  unfold wrapVoidAction, spawned_child.
  destruct (shift (JS.split_ws commandLine)). reflexivity.
Qed.

Lemma wrapStringAction_runs (host : Host) (commandLine : string)
  (workingDirectory : option string) :
  wrapStringAction host commandLine workingDirectory
  = result (run_child string_handle
                      (spawned_child host commandLine workingDirectory)).
Proof.
  unfold wrapStringAction, spawned_child.
  destruct (shift (JS.split_ws commandLine)). reflexivity.
Qed.

(** For a child that exits with a number as its code, [wrapVoidAction]
    fulfils its promise with the buffered output and that code. *)
Lemma wrapVoidAction_exit (host : Host) (commandLine : string)
  (workingDirectory : option string) (chunks : list string) (code : Z)
  (signal : option string) (later : list child_event) :
  spawned_child host commandLine workingDirectory
  = (map Data chunks ++ Exit (Some code) signal :: later)%list ->
  state (wrapVoidAction host commandLine workingDirectory)
  = Fulfilled (mkActionResult (accumulated chunks) (Some code)).
Proof.
  intros H. rewrite wrapVoidAction_runs, H.
  apply run_child_terminal.
  - reflexivity.
  - apply void_handle_settled.
  - destruct code; reflexivity.
  - discriminate.
Qed.

Lemma wrapStringAction_exit (host : Host) (commandLine : string)
  (workingDirectory : option string) (chunks : list string) (code : Z)
  (signal : option string) (later : list child_event) :
  spawned_child host commandLine workingDirectory
  = (map Data chunks ++ Exit (Some code) signal :: later)%list ->
  state (wrapStringAction host commandLine workingDirectory)
  = Fulfilled (accumulated chunks).
Proof.
  intros H. rewrite wrapStringAction_runs, H.
  apply run_child_terminal.
  - reflexivity.
  - apply string_handle_settled.
  - reflexivity.
  - discriminate.
Qed.

Lemma wrapVoidAction_error (host : Host) (commandLine : string)
  (workingDirectory : option string) (chunks : list string)
  (e : spawn_error) (later : list child_event) :
  spawned_child host commandLine workingDirectory
  = (map Data chunks ++ Error e :: later)%list ->
  state (wrapVoidAction host commandLine workingDirectory)
  = Rejected (ReasonError e).
Proof.
  intros H. rewrite wrapVoidAction_runs, H.
  apply run_child_terminal.
  - reflexivity.
  - apply void_handle_settled.
  - reflexivity.
  - discriminate.
Qed.

Lemma wrapStringAction_error (host : Host) (commandLine : string)
  (workingDirectory : option string) (chunks : list string)
  (e : spawn_error) (later : list child_event) :
  spawned_child host commandLine workingDirectory
  = (map Data chunks ++ Error e :: later)%list ->
  state (wrapStringAction host commandLine workingDirectory)
  = Rejected (ReasonError e).
Proof.
  intros H. rewrite wrapStringAction_runs, H.
  apply run_child_terminal.
  - reflexivity.
  - apply string_handle_settled.
  - reflexivity.
  - discriminate.
Qed.

(** C6, where the code departs from the specification: a child that a
    signal ends has [null] as the code of its exit event. On the run that
    prints a chunk and is then ended by SIGTERM, [wrapVoidAction] fulfils with
    that chunk and the status [null], while the exit handler of
    [wrapStringAction], which names its parameter [e] and reads [e.code],
    throws on the [null]: it makes no call on the deferred and the promise
    stays pending, so the accumulated output is not resolved. *)
Theorem wrapStringAction_unsettled_after_signal :
  spawned_child killed_host "cordova info" (Some "app")
  = [Data "partial"; Exit None (Some "SIGTERM")]
  /\ state (wrapStringAction killed_host "cordova info" (Some "app"))
     = Pending
  /\ calls (wrapStringAction killed_host "cordova info" (Some "app")) = []
  /\ is_fulfilled (state (wrapStringAction killed_host "cordova info"
                                           (Some "app")))
     = false
  /\ state (wrapVoidAction killed_host "cordova info" (Some "app"))
     = Fulfilled (mkActionResult "partial" None).
Proof. repeat split. Qed.

(** On numeric exit codes both primitives do what the specification says:
    for a child that emits data chunks and then exits with a number as its
    code, zero or not, [wrapVoidAction] fulfils with the buffered output and
    that code, and [wrapStringAction] fulfils with the buffered output; for a
    child that emits an error event instead, both reject with the raw error.
    Events after the first exit or error change nothing. *)
Theorem execution_primitives_outcomes (host : Host) (commandLine : string)
  (workingDirectory : option string) (chunks : list string)
  (later : list child_event) :
  (forall (code : Z) (signal : option string),
      spawned_child host commandLine workingDirectory
      = (map Data chunks ++ Exit (Some code) signal :: later)%list ->
      state (wrapVoidAction host commandLine workingDirectory)
      = Fulfilled (mkActionResult (accumulated chunks) (Some code))
      /\ state (wrapStringAction host commandLine workingDirectory)
         = Fulfilled (accumulated chunks))
  /\ (forall e : spawn_error,
        spawned_child host commandLine workingDirectory
        = (map Data chunks ++ Error e :: later)%list ->
        state (wrapVoidAction host commandLine workingDirectory)
        = Rejected (ReasonError e)
        /\ state (wrapStringAction host commandLine workingDirectory)
           = Rejected (ReasonError e)).
Proof.
  split.
  - intros code signal H. split.
    + eapply wrapVoidAction_exit; eassumption.
    + eapply wrapStringAction_exit; eassumption.
  - intros e H. split.
    + eapply wrapVoidAction_error; eassumption.
    + eapply wrapStringAction_error; eassumption.
Qed.

Lemma execution_primitives_on_sample_hosts :
  (state (wrapVoidAction project_host "cordova build android" (Some "app"))
   = Fulfilled (mkActionResult "Creating project" (Some 0%Z))
   /\ state (wrapStringAction project_host "cordova build android"
                              (Some "app"))
      = Fulfilled "Creating project")
  /\ (state (wrapVoidAction failing_host "cordova build android" (Some "app"))
      = Fulfilled (mkActionResult "Error: path exists" (Some 1%Z))
      /\ state (wrapStringAction failing_host "cordova build android"
                                 (Some "app"))
         = Fulfilled "Error: path exists")
  /\ (state (wrapVoidAction toolless_host "cordova info" None)
      = Rejected (ReasonError (mkSpawnError "ENOENT"))
      /\ state (wrapStringAction toolless_host "cordova info" None)
         = Rejected (ReasonError (mkSpawnError "ENOENT"))).
Proof.
  split; [|split].
  - apply (proj1 (execution_primitives_outcomes
                    project_host "cordova build android" (Some "app")
                    ["Creating "; "project"] []) 0%Z None).
    reflexivity.
  - apply (proj1 (execution_primitives_outcomes
                    failing_host "cordova build android" (Some "app")
                    ["Error: "; "path exists"] []) 1%Z None).
    reflexivity.
  - apply (proj2 (execution_primitives_outcomes
                    toolless_host "cordova info" None [] [])
                 (mkSpawnError "ENOENT")).
    reflexivity.
Defined.

(** ** create *)

Lemma create_args_positional (name : string) (id title : option string) :
  create_args name id title
  = ("create" :: name :: supplied id ++ supplied title)%list.
Proof.
  unfold create_args, supplied, string_or_empty.
  destruct (truthy_string id), (truthy_string title); reflexivity.
Qed.

Lemma create_child_spawn (host : Host) (name : string)
  (id title : option string) :
  create_child host name id title
  = if isWindows host
    then spawn host "cmd"
               ("/s" :: "/c" :: "cordova" :: create_args name id title)
               (cwd host)
    else spawn host "cordova" (create_args name id title) (cwd host).
Proof. reflexivity. Qed.

Lemma forward_state {A E : Type} (p : promise A E) (d : deferred A E) :
  state (forward p d) = settle p (state d).
Proof. destruct p; simpl; [now destruct (state d)|reflexivity|reflexivity]. Qed.

Lemma iter_succ {A : Type} (k : nat) (f : A -> A) (x : A) :
  Nat.iter (S k) f x = f (Nat.iter k f x).
Proof. reflexivity. Qed.

Section CreateRuns.

Variable host : Host.
Variable name : string.

Lemma opened_not_pending : (state (open host (path_join host "." name))) <> Pending.
Proof.
  rewrite open_state. destruct (stat_err host _); discriminate.
Qed.

Lemma answered_state (st : child_state CordovaProject) :
  state (result ((open_answered host name) st)) = settle (state (open host (path_join host "." name))) (state (result st)).
Proof. unfold open_answered. simpl. apply forward_state. Qed.

Lemma answers_settled (k : nat) (st : child_state CordovaProject) :
  state (result st) <> Pending ->
  state (result (Nat.iter k (open_answered host name) st)) = state (result st).
Proof.
  intros H. induction k as [|k IH]; [reflexivity|].
  rewrite iter_succ, answered_state, IH. now apply settle_settled.
Qed.

Lemma answers_pending (k : nat) (st : child_state CordovaProject) :
  state (result st) = Pending ->
  state (result (Nat.iter (S k) (open_answered host name) st)) = (state (open host (path_join host "." name))).
Proof.
  intros H. induction k as [|k IH].
  - rewrite iter_succ. simpl Nat.iter. rewrite answered_state, H. simpl.
    destruct (state (open host (path_join host "." name))) eqn:Ho;
      [now apply opened_not_pending in Ho| |];
      reflexivity.
  - rewrite iter_succ, answered_state, IH. apply settle_settled.
    apply opened_not_pending.
Qed.

Lemma answers_outBuffer (k : nat) (st : child_state CordovaProject) :
  outBuffer (Nat.iter k (open_answered host name) st) = outBuffer st.
Proof. induction k as [|k IH]; [reflexivity|]. simpl. exact IH. Qed.

Lemma create_handle_settled (st : child_state CordovaProject)
  (ev : child_event) :
  state (result st) <> Pending ->
  state (result (fst (create_handle name st ev))) = state (result st).
Proof.
  intros H. destruct ev as [text|e|[[|c|c]|] signal]; simpl;
    try reflexivity; now apply settle_settled.
Qed.

Lemma create_handle_leaves_pending (st : child_state CordovaProject)
  (ev : child_event) :
  leaves_pending ev = true ->
  state (result (fst (create_handle name st ev))) = state (result st).
Proof.
  destruct ev as [text|e|[[|c|c]|] signal]; simpl;
    try discriminate; reflexivity.
Qed.

Lemma create_step_handlers (run : create_state) (ev : child_event) :
  handlers (create_step host name run ev)
  = fst (create_handle name
           (Nat.iter (answers_due (opening run)) (open_answered host name) (handlers run))
           ev).
Proof.
  unfold create_step.
  now destruct (create_handle name _ ev).
Qed.

Lemma create_step_opening (run : create_state) (ev : child_event) :
  exists started,
    opening (create_step host name run ev)
    = (still_waiting (opening run) ++ started)%list.
Proof.
  unfold create_step. destruct (create_handle name _ ev) as [st' opens].
  simpl. eauto.
Qed.

Lemma create_step_settled (run : create_state) (ev : child_event) :
  state (result (handlers run)) <> Pending ->
  state (result (handlers (create_step host name run ev)))
  = state (result (handlers run)).
Proof.
  intros H. rewrite create_step_handlers.
  rewrite create_handle_settled.
  - now apply answers_settled.
  - now rewrite answers_settled.
Qed.

Lemma create_run_cons (ev : child_event) (events : list child_event)
  (run : create_state) :
  create_run host name (ev :: events) run
  = create_run host name events (create_step host name run ev).
Proof. reflexivity. Qed.

(** Once settled, the promise keeps its state to the end of the run. *)
Lemma create_run_settled (events : list child_event) (run : create_state) :
  state (result (handlers run)) <> Pending ->
  state (result (create_run host name events run))
  = state (result (handlers run)).
Proof.
  revert run. induction events as [|ev events IH]; intros run H.
  - unfold create_run, create_finish. simpl.
    now apply answers_settled.
  - rewrite create_run_cons, IH.
    + now apply create_step_settled.
    + now rewrite create_step_settled.
Qed.

Lemma create_data_run (chunks : list string) (buffer : string)
  (d : deferred CordovaProject reason) :
  fold_left (create_step host name) (map Data chunks)
            (mkCreateState (mkChildState buffer d false) [])
  = mkCreateState
      (mkChildState (fold_left (fun b t => b ++ t) chunks buffer) d false)
      [].
Proof.
  revert buffer. induction chunks as [|text chunks IH]; intros buffer.
  - reflexivity.
  - simpl. apply IH.
Qed.

Lemma create_run_after_data (chunks : list string)
  (events : list child_event) :
  create_run host name (map Data chunks ++ events)%list
             (mkCreateState (mkChildState "" defer false) [])
  = create_run host name events
      (mkCreateState (mkChildState (accumulated chunks) defer false) []).
Proof.
  unfold create_run. now rewrite fold_left_app, create_data_run.
Qed.

(** While an [open] is under way and only data or further exits with code 0
    arrive before its answer, the outcome is that of [open]. *)
Lemma create_run_waiting (events : list child_event)
  (st : child_state CordovaProject) (c : nat) (pend : list nat) :
  state (result st) = Pending ->
  forallb leaves_pending (firstn c events) = true ->
  state (result (create_run host name events
                            (mkCreateState st (c :: pend))))
  = (state (open host (path_join host "." name))).
Proof.
  revert st c pend. induction events as [|ev events IH];
    intros st c pend Hst Hquiet.
  - unfold create_run, create_finish. simpl fold_left. simpl opening.
    simpl handlers. now apply answers_pending.
  - rewrite create_run_cons.
    destruct c as [|c].
    + rewrite create_run_settled; rewrite create_step_handlers;
        simpl opening; simpl handlers;
        change (answers_due (0 :: pend)) with (S (answers_due pend)).
      * rewrite create_handle_settled; rewrite (answers_pending _ _ Hst);
          [reflexivity|apply opened_not_pending].
      * rewrite create_handle_settled; rewrite (answers_pending _ _ Hst);
          apply opened_not_pending.
    + simpl in Hquiet. apply andb_true_iff in Hquiet.
      destruct Hquiet as [Hev Hquiet].
      destruct (answers_due pend) as [|k] eqn:Hdue.
      * unfold create_step. simpl opening. simpl handlers.
        change (answers_due (S c :: pend)) with (answers_due pend).
        rewrite Hdue. simpl Nat.iter.
        pose proof (create_handle_leaves_pending st ev Hev) as Hkeep.
        destruct (create_handle name st ev) as [st' opens]. simpl in Hkeep.
        change (still_waiting (S c :: pend)) with (c :: still_waiting pend).
        simpl app. apply IH; [now rewrite Hkeep|exact Hquiet].
      * rewrite create_run_settled; rewrite create_step_handlers;
          simpl opening; simpl handlers;
          change (answers_due (S c :: pend)) with (answers_due pend);
          rewrite Hdue, (create_handle_leaves_pending _ _ Hev),
            (answers_pending _ _ Hst);
          [reflexivity|apply opened_not_pending].
Qed.

(** While every [open] under way answers only after [quiet] further events,
    an error event that follows these rejects first. *)
Lemma create_run_error_first (quiet later : list child_event)
  (e : spawn_error) (run : create_state) :
  state (result (handlers run)) = Pending ->
  forallb leaves_pending quiet = true ->
  Forall (fun c => List.length quiet < c) (opening run) ->
  List.length quiet < stat_delay host ->
  state (result (create_run host name (quiet ++ Error e :: later)%list run))
  = Rejected (ReasonError e).
Proof.
  revert run. induction quiet as [|ev quiet IH];
    intros run Hst Hquiet Hopen Hdelay.
  - simpl app. rewrite create_run_cons, create_run_settled;
      rewrite create_step_handlers.
    + assert (Hdue : answers_due (opening run) = 0).
      { unfold answers_due. induction Hopen as [|c l Hc Hl IHl];
          [reflexivity|].
        simpl. destruct c; [simpl in Hc; lia|exact IHl]. }
      rewrite Hdue. simpl. now rewrite Hst.
    + assert (Hdue : answers_due (opening run) = 0).
      { unfold answers_due. induction Hopen as [|c l Hc Hl IHl];
          [reflexivity|].
        simpl. destruct c; [simpl in Hc; lia|exact IHl]. }
      rewrite Hdue. simpl. rewrite Hst. discriminate.
  - simpl in Hquiet. apply andb_true_iff in Hquiet.
    destruct Hquiet as [Hev Hquiet].
    simpl app. rewrite create_run_cons.
    assert (Hdue : answers_due (opening run) = 0).
    { unfold answers_due. induction Hopen as [|c l Hc Hl IHl];
        [reflexivity|].
      simpl. destruct c; [simpl in Hc; lia|exact IHl]. }
    apply IH.
    + rewrite create_step_handlers, Hdue. simpl Nat.iter.
      now rewrite (create_handle_leaves_pending _ _ Hev).
    + exact Hquiet.
    + unfold create_step. rewrite Hdue. simpl Nat.iter.
      destruct (create_handle name (handlers run) ev) as [st' opens].
      simpl opening. apply Forall_app. split.
      * unfold still_waiting. clear - Hopen.
        induction Hopen as [|c l Hc Hl IHl]; [constructor|].
        simpl in Hc. destruct c as [|c]; [lia|].
        simpl. constructor; [simpl; lia|exact IHl].
      * destruct opens; constructor; [simpl in Hdelay; lia|constructor].
    + simpl in Hdelay. lia.
Qed.

(** A promise of [create] that is settled or has an [open] under way is
    settled at the end of the run. *)
Lemma create_run_not_pending (events : list child_event)
  (run : create_state) :
  state (result (handlers run)) <> Pending \/ opening run <> [] ->
  state (result (create_run host name events run)) <> Pending.
Proof.
  revert run. induction events as [|ev events IH]; intros run H.
  - unfold create_run, create_finish. simpl fold_left.
    destruct (promise_pending_dec (state (result (handlers run))))
      as [Hp|Hp].
    + destruct H as [H|H]; [contradiction|].
      destruct (opening run) as [|c l]; [contradiction|].
      simpl List.length. rewrite (answers_pending _ _ Hp).
      apply opened_not_pending.
    + now rewrite answers_settled.
  - rewrite create_run_cons. apply IH.
    destruct (promise_pending_dec (state (result (handlers run))))
      as [Hp|Hp].
    + destruct H as [H|H]; [contradiction|].
      destruct (answers_due (opening run)) as [|k] eqn:Hdue.
      * right. destruct (create_step_opening run ev) as [started ->].
        destruct (opening run) as [|c l]; [contradiction|].
        unfold answers_due in Hdue. simpl in Hdue.
        destruct c; [discriminate Hdue|]. discriminate.
      * left. rewrite create_step_handlers, Hdue.
        rewrite create_handle_settled; rewrite (answers_pending _ _ Hp);
          apply opened_not_pending.
    + left. now rewrite create_step_settled.
Qed.

Lemma answered_ok (st : child_state CordovaProject) :
  create_promise_ok host name (state (result st)) ->
  create_promise_ok host name (state (result ((open_answered host name) st))).
Proof.
  intros H. rewrite answered_state.
  destruct (state (result st)) eqn:Hs; unfold settle; try exact H.
  rewrite open_state.
  destruct (stat_err host _) eqn:Hstat; simpl; [reflexivity|now split].
Qed.

Lemma answers_ok (k : nat) (st : child_state CordovaProject) :
  create_promise_ok host name (state (result st)) ->
  create_promise_ok host name (state (result (Nat.iter k (open_answered host name) st))).
Proof.
  intros H. induction k as [|k IH]; [exact H|].
  rewrite iter_succ. now apply answered_ok.
Qed.

Lemma create_handle_ok (st : child_state CordovaProject)
  (ev : child_event) :
  create_promise_ok host name (state (result st)) ->
  create_promise_ok host name (state (result (fst (create_handle name st ev)))).
Proof.
  intros H. destruct ev as [text|e|[[|c|c]|] signal]; simpl; try exact H;
    destruct (state (result st)); simpl in *; auto.
Qed.

(** Whatever the child emits, the promise of [create] holds nothing but
    what [create_promise_ok] lists. *)
Lemma create_run_ok (events : list child_event) (run : create_state) :
  create_promise_ok host name (state (result (handlers run))) ->
  create_promise_ok host name
    (state (result (create_run host name events run))).
Proof.
  revert run. induction events as [|ev events IH]; intros run H.
  - unfold create_run, create_finish. simpl fold_left.
    now apply answers_ok.
  - rewrite create_run_cons. apply IH. rewrite create_step_handlers.
    apply create_handle_ok. now apply answers_ok.
Qed.

End CreateRuns.

Lemma create_runs (host : Host) (name : string) (id title : option string) :
  create host name id title
  = result (create_run host name (create_child host name id title)
              (mkCreateState (mkChildState "" defer false) [])).
Proof. reflexivity. Qed.

Lemma create_spawn_error (host : Host) (name : string)
  (id title : option string) (chunks : list string) (e : spawn_error)
  (later : list child_event) :
  create_child host name id title
  = (map Data chunks ++ Error e :: later)%list ->
  state (create host name id title) = Rejected (ReasonError e).
Proof.
  intros H. rewrite create_runs, H, create_run_after_data.
  rewrite create_run_cons, create_run_settled; [reflexivity|discriminate].
Qed.

Lemma create_exit_other (host : Host) (name : string)
  (id title : option string) (chunks : list string) (code : option Z)
  (signal : option string) (later : list child_event) :
  code <> Some 0%Z ->
  create_child host name id title
  = (map Data chunks ++ Exit code signal :: later)%list ->
  state (create host name id title)
  = Rejected (ReasonExit code (accumulated chunks)).
Proof.
  intros Hcode H. rewrite create_runs, H, create_run_after_data.
  rewrite create_run_cons.
  destruct code as [[|c|c]|]; [now contradiction Hcode| | |];
    (rewrite create_run_settled; [reflexivity|discriminate]).
Qed.

Lemma create_exit_zero (host : Host) (name : string)
  (id title : option string) (chunks : list string)
  (signal : option string) (later : list child_event) :
  create_child host name id title
  = (map Data chunks ++ Exit (Some 0%Z) signal :: later)%list ->
  forallb leaves_pending (firstn (stat_delay host) later) = true ->
  state (create host name id title)
  = state (open host (path_join host "." name)).
Proof.
  intros H Hquiet. rewrite create_runs, H, create_run_after_data.
  rewrite create_run_cons.
  change (create_step host name
            (mkCreateState (mkChildState (accumulated chunks) defer false) [])
            (Exit (Some 0%Z) signal))
    with (mkCreateState (mkChildState (accumulated chunks) defer false)
                        [stat_delay host]).
  now apply create_run_waiting.
Qed.

Lemma create_error_before_answer (host : Host) (name : string)
  (id title : option string) (chunks : list string)
  (signal : option string) (quiet : list child_event) (e : spawn_error)
  (later : list child_event) :
  create_child host name id title
  = (map Data chunks ++ Exit (Some 0%Z) signal :: quiet
       ++ Error e :: later)%list ->
  forallb leaves_pending quiet = true ->
  List.length quiet < stat_delay host ->
  state (create host name id title) = Rejected (ReasonError e).
Proof.
  intros H Hquiet Hlen. rewrite create_runs, H, create_run_after_data.
  rewrite create_run_cons.
  change (create_step host name
            (mkCreateState (mkChildState (accumulated chunks) defer false) [])
            (Exit (Some 0%Z) signal))
    with (mkCreateState (mkChildState (accumulated chunks) defer false)
                        [stat_delay host]).
  apply create_run_error_first; try assumption.
  - reflexivity.
  - simpl. constructor; [exact Hlen|constructor].
Qed.

(** ** Strings *)

Lemma string_app_assoc (a b c : string) : (a ++ b) ++ c = a ++ (b ++ c).
Proof. induction a as [|x a IH]; simpl; [reflexivity|now rewrite IH]. Qed.

Lemma string_app_empty_r (a : string) : a ++ "" = a.
Proof. induction a as [|x a IH]; simpl; [reflexivity|now rewrite IH]. Qed.

Ltac normalize_append :=
  repeat rewrite string_app_assoc; repeat rewrite string_app_empty_r.

(** ** Command construction *)

Lemma selected_in (table : list (bool * string)) (flag : string) :
  In flag (selected table) <-> In (true, flag) table.
Proof.
  unfold selected. rewrite in_map_iff. split.
  - intros [[b f] [Hf Hin]]. simpl in Hf. subst f.
    apply filter_In in Hin. destruct Hin as [Hin Hb]. simpl in Hb.
    now subst b.
  - intros Hin. exists (true, flag). split; [reflexivity|].
    apply filter_In. now split.
Qed.

Lemma selected_NoDup (table : list (bool * string)) :
  NoDup (map snd table) -> NoDup (selected table).
Proof.
  unfold selected. induction table as [|[b f] table IH]; simpl; intros H.
  - constructor.
  - inversion H as [|x l Hnotin Hnodup]; subst.
    destruct b; simpl; [|now apply IH].
    constructor; [|now apply IH].
    intros Hin. apply Hnotin. apply in_map_iff in Hin.
    destruct Hin as [y [Hy Hin]]. apply filter_In in Hin.
    apply in_map_iff. exists y. now split.
Qed.

(** The command of [addPlugin] is its fixed part, the search specification,
    the search path piece, and the flags of the truthy options in the order
    of the table. *)
Lemma addPlugin_cmd_flags (host : Host) (searchSpec : string)
  (o : PluginAddOptions) :
  addPlugin_cmd host searchSpec (Some o)
  = "cordova plugin add " ++ searchSpec
      ++ searchpath_piece host (searchPaths o)
      ++ concat_all (selected (addPlugin_table o)).
Proof.
  unfold addPlugin_cmd, searchpath_piece, selected, addPlugin_table,
    concat_all.
  destruct o as [paths f1 f2 f3 f4 f5]. cbn [searchPaths noRegistry pa_link
    pa_save shrinkwrap experimentalBrowserify].
  destruct paths as [p|];
    destruct (truthy_flag f1), (truthy_flag f2), (truthy_flag f3),
      (truthy_flag f4), (truthy_flag f5);
    cbn [filter map fold_right fst snd]; normalize_append; reflexivity.
Qed.

Lemma addPlugin_cmd_no_options (host : Host) (searchSpec : string) :
  addPlugin_cmd host searchSpec None = "cordova plugin add " ++ searchSpec.
Proof. reflexivity. Qed.

Lemma removePlugin_cmd_flags (pluginId : string)
  (o : ComponentRemoveOptions) :
  removePlugin_cmd pluginId (Some o)
  = "cordova plugin remove " ++ pluginId
      ++ concat_all (selected (remove_table o)).
Proof.
  unfold removePlugin_cmd, selected, remove_table, concat_all.
  destruct (truthy_flag (cr_save o));
    cbn [filter map fold_right fst snd]; normalize_append; reflexivity.
Qed.

Lemma addPlatform_cmd_flags (searchSpec : string) (o : PlatformAddOptions) :
  addPlatform_cmd searchSpec (Some o)
  = "cordova platform add " ++ searchSpec
      ++ concat_all (selected (addPlatform_table o)).
Proof.
  unfold addPlatform_cmd, selected, addPlatform_table, concat_all.
  destruct (truthy_flag (useGit o)), (truthy_flag (pl_save o)),
    (truthy_flag (pl_link o));
    cbn [filter map fold_right fst snd]; normalize_append; reflexivity.
Qed.

Lemma removePlatform_cmd_flags (name : string) (o : ComponentRemoveOptions) :
  removePlatform_cmd name (Some o)
  = "cordova platform remove " ++ name
      ++ concat_all (selected (remove_table o)).
Proof.
  unfold removePlatform_cmd, selected, remove_table, concat_all.
  destruct (truthy_flag (cr_save o));
    cbn [filter map fold_right fst snd]; normalize_append; reflexivity.
Qed.

Lemma update_cmd_flags (name : option string) (o : PlatformAddOptions) :
  update_cmd name (Some o)
  = "cordova platform update"
      ++ (if truthy_string name then " " ++ string_or_empty name else "")
      ++ concat_all (selected (update_table o)).
Proof.
  unfold update_cmd, selected, update_table, concat_all.
  destruct (truthy_string name), (truthy_flag (useGit o)),
    (truthy_flag (pl_save o));
    cbn [filter map fold_right fst snd]; normalize_append; reflexivity.
Qed.

(** [update] takes the options of [addPlatform] and has no flag for
    [link]. *)
Lemma update_cmd_without_link (name : option string)
  (g sv l1 l2 : option bool) :
  update_cmd name (Some (mkPlatformAddOptions g sv l1))
  = update_cmd name (Some (mkPlatformAddOptions g sv l2)).
Proof. reflexivity. Qed.

(** In every table the flags are pairwise distinct, so no command repeats
    a flag. *)
Lemma flag_tables_NoDup (pa : PluginAddOptions) (cr : ComponentRemoveOptions)
  (pl : PlatformAddOptions) :
  NoDup (selected (addPlugin_table pa))
  /\ NoDup (selected (remove_table cr))
  /\ NoDup (selected (addPlatform_table pl))
  /\ NoDup (selected (update_table pl)).
Proof.
  repeat split; apply selected_NoDup; simpl;
    repeat (constructor; [simpl; intuition discriminate|]); constructor.
Qed.

(** C2, where the code departs from the specification: for the search
    paths plugins and vendor, [addPlugin] appends the flag with an opening quote that is never
    closed, so the argument after --searchpath is not the joined paths. *)
Theorem addPlugin_searchpath_unclosed_quote :
  let options :=
    Some (mkPluginAddOptions (Some ["plugins"; "vendor"]) None None
                             (Some true) None None) in
  addPlugin_cmd project_host "cordova-plugin-camera" options
  = "cordova plugin add cordova-plugin-camera --searchpath "
      ++ String quote "plugins:vendor --save"
  /\ JS.split_ws (addPlugin_cmd project_host "cordova-plugin-camera" options)
     = ["cordova"; "plugin"; "add"; "cordova-plugin-camera"; "--searchpath";
        String quote "plugins:vendor"; "--save"]
  /\ JS.join ":" ["plugins"; "vendor"] = "plugins:vendor"
  /\ String.eqb (String quote "plugins:vendor")
                (JS.join ":" ["plugins"; "vendor"])
     = false.
Proof. repeat split. Qed.

(** ** indexOf *)

Lemma prefix_app (p s : string) :
  prefix p s = true <-> exists rest, s = p ++ rest.
Proof.
  revert s. induction p as [|a p IH]; intros s.
  - destruct s; simpl; split; eauto.
  - destruct s as [|b s]; simpl.
    + split; [discriminate|]. intros [rest H]. discriminate H.
    + destruct (ascii_dec a b) as [->|Hab].
      * rewrite IH. split; intros [rest H]; exists rest.
        -- now rewrite H.
        -- now injection H.
      * split; [discriminate|]. intros [rest H]. injection H as H1 H2.
        contradiction Hab. now symmetry.
Qed.

Lemma indexOf_from_cons (c : ascii) (hay needle : string) (pos : Z) :
  JS.indexOf_from (String c hay) needle pos
  = if prefix needle (String c hay) then pos
    else JS.indexOf_from hay needle (pos + 1).
Proof. reflexivity. Qed.

Lemma indexOf_from_nil (needle : string) (pos : Z) :
  JS.indexOf_from "" needle pos = if prefix needle "" then pos else (-1)%Z.
Proof. reflexivity. Qed.

Lemma indexOf_from_range (hay needle : string) (pos : Z) :
  JS.indexOf_from hay needle pos = (-1)%Z
  \/ (pos <= JS.indexOf_from hay needle pos)%Z.
Proof.
  revert pos. induction hay as [|c hay IH]; intros pos.
  - simpl. destruct needle; [right; lia|left; reflexivity].
  - rewrite indexOf_from_cons.
    destruct (prefix needle (String c hay)); [right; lia|].
    destruct (IH (pos + 1)%Z) as [H|H]; [now left|right; lia].
Qed.

(** [line.indexOf(searchStr) === 0] says that the line begins with it. *)
Lemma indexOf_zero_prefix (line searchStr : string) :
  (JS.indexOf line searchStr =? 0)%Z = prefix searchStr line.
Proof.
  unfold JS.indexOf. destruct line as [|c line].
  - simpl. destruct searchStr; reflexivity.
  - rewrite indexOf_from_cons.
    destruct (prefix searchStr (String c line)); [reflexivity|].
    destruct (indexOf_from_range line searchStr (0 + 1)) as [H|H].
    + rewrite H. reflexivity.
    + apply Z.eqb_neq. lia.
Qed.

Lemma indexOf_from_found (hay needle : string) (pos : Z) :
  (0 <= pos)%Z ->
  (JS.indexOf_from hay needle pos >? -1)%Z = true <-> occurs_in needle hay.
Proof.
  intros Hpos. split.
  - revert pos Hpos. induction hay as [|c hay IH]; intros pos Hpos H.
    + simpl in H. destruct needle; [|discriminate H].
      exists "", "". reflexivity.
    + rewrite indexOf_from_cons in H.
      destruct (prefix needle (String c hay)) eqn:Hp.
      * apply prefix_app in Hp. destruct Hp as [rest Hp].
        exists "", rest. exact Hp.
      * destruct (IH (pos + 1)%Z ltac:(lia) H) as [before [after Heq]].
        exists (String c before), after. simpl. now rewrite Heq.
  - intros [before [after Heq]]. subst hay. revert pos Hpos.
    induction before as [|c before IH]; intros pos Hpos.
    + simpl append.
      assert (Hp : prefix needle (needle ++ after) = true)
        by (apply prefix_app; eauto).
      destruct (needle ++ after) as [|c rest].
      * rewrite indexOf_from_nil, Hp. apply Z.gtb_lt. lia.
      * rewrite indexOf_from_cons, Hp. apply Z.gtb_lt. lia.
    + simpl append. rewrite indexOf_from_cons.
      destruct (prefix needle _); [apply Z.gtb_lt; lia|].
      apply IH. lia.
Qed.

(** [line.indexOf(s) > -1] says that [s] occurs in the line. *)
Lemma indexOf_found (hay needle : string) :
  (JS.indexOf hay needle >? -1)%Z = true <-> occurs_in needle hay.
Proof. apply indexOf_from_found. lia. Qed.

Lemma has_widget_close_occurs (line : string) :
  has_widget_close line = true <-> occurs_in "</widget>" line.
Proof. apply indexOf_found. Qed.

Lemma has_plugins_marker_occurs (line : string) :
  has_plugins_marker line = true <-> occurs_in "Plugins:" line.
Proof. apply indexOf_found. Qed.

(** ** getInfo *)

Lemma getInfo_xml_spec (lines : list string) (xml : string) :
  getInfo_xml lines xml
  = (xml ++ concat_all (through_first has_widget_close lines),
     from_first has_widget_close lines).
Proof.
  revert xml. induction lines as [|line rest IH]; intros xml; simpl.
  - now rewrite string_app_empty_r.
  - fold (has_widget_close line). destruct (has_widget_close line); simpl.
    + now rewrite string_app_empty_r.
    + rewrite IH. now rewrite string_app_assoc.
Qed.

Lemma getInfo_plugins_enumerating (lines plugins : list string) :
  getInfo_plugins lines false true plugins
  = (plugins ++ filter JS.has_non_whitespace lines)%list.
Proof.
  revert plugins. induction lines as [|line rest IH]; intros plugins; simpl.
  - now rewrite app_nil_r.
  - destruct (JS.has_non_whitespace line).
    + rewrite IH, <- app_assoc. reflexivity.
    + apply IH.
Qed.

Lemma getInfo_plugins_looking (lines plugins : list string) :
  getInfo_plugins lines true false plugins
  = (plugins
     ++ filter JS.has_non_whitespace (after_first has_plugins_marker lines))
    %list.
Proof.
  induction lines as [|line rest IH]; simpl.
  - now rewrite app_nil_r.
  - unfold after_first. simpl. fold (has_plugins_marker line).
    destruct (has_plugins_marker line).
    + apply getInfo_plugins_enumerating.
    + exact IH.
Qed.

Lemma getInfo_then_spec (text : string) :
  getInfo_then text
  = mkProjectInfo
      (concat_all (through_first has_widget_close (JS.split newline text)))
      (filter JS.has_non_whitespace
         (after_first has_plugins_marker
            (from_first has_widget_close (JS.split newline text)))).
Proof.
  unfold getInfo_then. rewrite getInfo_xml_spec.
  rewrite getInfo_plugins_looking. reflexivity.
Qed.

Lemma through_first_none (P : string -> bool) (lines : list string) :
  (forall line, In line lines -> P line = false) ->
  through_first P lines = lines /\ from_first P lines = [].
Proof.
  induction lines as [|line rest IH]; intros H; simpl.
  - now split.
  - rewrite (H line (or_introl eq_refl)).
    destruct IH as [IH1 IH2].
    + intros l Hl. apply H. now right.
    + now rewrite IH1, IH2.
Qed.

Lemma split_sep_free (sep : ascii) (x : string) :
  has_char sep x = false -> JS.split sep x = [x].
Proof.
  induction x as [|c x IH]; simpl; intros H; [reflexivity|].
  apply orb_false_iff in H. destruct H as [Hc Hx].
  rewrite Hc, (IH Hx). reflexivity.
Qed.

Lemma split_app_sep (sep : ascii) (x rest : string) :
  has_char sep x = false ->
  JS.split sep (x ++ String sep rest) = x :: JS.split sep rest.
Proof.
  induction x as [|c x IH]; simpl; intros H.
  - now rewrite Ascii.eqb_refl.
  - apply orb_false_iff in H. destruct H as [Hc Hx].
    rewrite Hc, (IH Hx). reflexivity.
Qed.

(** Splitting undoes joining on the same separator when no joined line
    holds it. *)
Lemma split_join (sep : ascii) (lines : list string) :
  lines <> [] ->
  (forall line, In line lines -> has_char sep line = false) ->
  JS.split sep (JS.join (String sep "") lines) = lines.
Proof.
  induction lines as [|x lines IH]; intros Hne H; [contradiction Hne; reflexivity|].
  destruct lines as [|y lines].
  - simpl. apply split_sep_free. apply H. now left.
  - change (JS.join (String sep "") (x :: y :: lines))
      with (x ++ String sep (JS.join (String sep "") (y :: lines))).
    rewrite split_app_sep by (apply H; now left).
    rewrite IH; [reflexivity|discriminate|].
    intros line Hin. apply H. now right.
Qed.

Lemma through_first_app (P : string -> bool) (head : list string)
  (line : string) (rest : list string) :
  (forall l, In l head -> P l = false) -> P line = true ->
  through_first P (head ++ line :: rest)%list = (head ++ [line])%list
  /\ from_first P (head ++ line :: rest)%list = line :: rest.
Proof.
  intros Hhead Hline. induction head as [|h head IH]; simpl.
  - now rewrite Hline.
  - rewrite (Hhead h (or_introl eq_refl)).
    destruct IH as [IH1 IH2].
    + intros l Hl. apply Hhead. now right.
    + now rewrite IH1, IH2.
Qed.



(** The same for any output written as lines joined by newlines. *)
Lemma getInfo_then_on_joined_lines (head : list string)
  (widget_line : string) (names : list string) :
  (forall l, In l (head ++ widget_line :: "Plugins:" :: names)%list ->
             has_char newline l = false) ->
  (forall l, In l head -> has_widget_close l = false) ->
  has_widget_close widget_line = true ->
  has_plugins_marker widget_line = false ->
  getInfo_then (JS.join (String newline "")
                        (head ++ widget_line :: "Plugins:" :: names)%list)
  = mkProjectInfo (concat_all (head ++ [widget_line]))
                  (filter JS.has_non_whitespace names).
Proof.
  intros Hnl Hhead Hw Hm. rewrite getInfo_then_spec.
  rewrite split_join; [|destruct head; discriminate|exact Hnl].
  destruct (through_first_app has_widget_close head widget_line
              ("Plugins:" :: names) Hhead Hw) as [H1 H2].
  rewrite H1, H2. unfold after_first. simpl from_first. rewrite Hm.
  reflexivity.
Qed.

(** C9: when no line of the output contains the closing widget tag, the
    config is all lines joined and there are no plugin names, whatever
    follows a plugins marker. *)
Theorem getInfo_without_widget_close (text : string) :
  (forall line, In line (JS.split newline text) ->
                has_widget_close line = false) ->
  config (getInfo_then text) = concat_all (JS.split newline text)
  /\ pluginNames (getInfo_then text) = [].
Proof.
  intros H. rewrite getInfo_then_spec. simpl.
  destruct (through_first_none has_widget_close _ H) as [H1 H2].
  rewrite H1, H2. split; reflexivity.
Qed.

Lemma getInfo_without_widget_close_witness :
  config (getInfo_then ("<widget>" ++ String newline "Plugins:"
                        ++ String newline "plugin-a"))
  = "<widget>Plugins:plugin-a"
  /\ pluginNames (getInfo_then ("<widget>" ++ String newline "Plugins:"
                                ++ String newline "plugin-a"))
     = [].
Proof.
  apply (getInfo_without_widget_close
           ("<widget>" ++ String newline "Plugins:"
            ++ String newline "plugin-a")).
  intros line Hin. simpl in Hin.
  destruct Hin as [<-|[<-|[<-|[]]]]; reflexivity.
Defined.

Lemma has_char_app (c : ascii) (a b : string) :
  has_char c (a ++ b) = has_char c a || has_char c b.
Proof.
  induction a as [|x a IH]; simpl; [reflexivity|].
  rewrite IH. now rewrite orb_assoc.
Qed.

Lemma split_nonempty (sep : ascii) (s : string) : JS.split sep s <> [].
Proof.
  destruct s as [|c s]; simpl; [discriminate|].
  destruct (Ascii.eqb c sep); [discriminate|].
  destruct (JS.split sep s); discriminate.
Qed.

Lemma split_pieces_no_sep (sep : ascii) (s piece : string) :
  In piece (JS.split sep s) -> has_char sep piece = false.
Proof.
  revert piece. induction s as [|c s IH]; intros piece Hin; simpl in Hin.
  - destruct Hin as [<-|[]]. reflexivity.
  - destruct (Ascii.eqb c sep) eqn:Hc.
    + destruct Hin as [<-|Hin]; [reflexivity|now apply IH].
    + destruct (JS.split sep s) as [|first rest] eqn:Hs.
      * destruct Hin as [<-|[]]. simpl. now rewrite Hc.
      * destruct Hin as [<-|Hin].
        -- simpl. rewrite Hc. apply IH. now left.
        -- apply IH. now right.
Qed.

Lemma concat_all_no_char (c : ascii) (pieces : list string) :
  (forall piece, In piece pieces -> has_char c piece = false) ->
  has_char c (concat_all pieces) = false.
Proof.
  induction pieces as [|p pieces IH]; intros H; simpl; [reflexivity|].
  rewrite has_char_app, (H p (or_introl eq_refl)). simpl.
  apply IH. intros q Hq. apply H. now right.
Qed.

Lemma through_first_incl (P : string -> bool) (lines : list string)
  (line : string) :
  In line (through_first P lines) -> In line lines.
Proof.
  induction lines as [|l rest IH]; simpl; [tauto|].
  destruct (P l); simpl.
  - intros [<-|[]]. now left.
  - intros [<-|Hin]; [now left|right; now apply IH].
Qed.

Lemma occurs_in_concat_all (pieces : list string) (piece : string) :
  In piece pieces -> occurs_in piece (concat_all pieces).
Proof.
  induction pieces as [|p pieces IH]; intros Hin; [destruct Hin|].
  destruct Hin as [<-|Hin].
  - exists "", (concat_all pieces). reflexivity.
  - destruct (IH Hin) as [before [after Heq]].
    exists (p ++ before), after. simpl. rewrite Heq.
    now rewrite string_app_assoc.
Qed.

(** ** The patterns *)

Lemma lazy_dots_some {A : Type} (k : string -> string -> option A)
  (s taken : string) (r : A) :
  lazy_dots k s taken = Some r ->
  exists cap rest, k cap rest = Some r.
Proof.
  revert taken. induction s as [|c s IH]; intros taken H; simpl in H.
  - discriminate H.
  - destruct (JS.is_line_terminator c); [discriminate H|].
    destruct (k (taken ++ String c "") s) as [r'|] eqn:Hk.
    + injection H as <-. eauto.
    + eapply IH. exact H.
Qed.

(** A match holds one capture per group of the pattern, so [match[1]] to
    [match[3]] (or [match[2]]) are all defined where the source reads them. *)
Lemma match_pieces_captures (r : list piece) (s : string)
  (caps m : list string) :
  match_pieces r s caps = Some m ->
  List.length m = List.length caps + count_groups r.
Proof.
  revert s caps. induction r as [|p r IH]; intros s caps H; simpl in H.
  - injection H as <-. simpl. lia.
  - destruct p; simpl.
    + destruct s as [|c' s]; [discriminate H|].
      destruct (Ascii.eqb c c'); [|discriminate H]. eapply IH. exact H.
    + apply lazy_dots_some in H. destruct H as [cap [rest H]].
      apply IH in H. rewrite length_app in H. simpl in H. lia.
    + destruct s; [|discriminate H]. eapply IH. exact H.
Qed.

Lemma regex_match_captures (r : list piece) (s : string) (m : list string) :
  regex_match r s = Some m -> List.length m = count_groups r.
Proof.
  induction s as [|c s IH]; simpl; intros H.
  - destruct (match_pieces r "" []) eqn:Hm; [|discriminate H].
    injection H as <-. now apply match_pieces_captures in Hm.
  - destruct (match_pieces r (String c s) []) eqn:Hm.
    + injection H as <-. now apply match_pieces_captures in Hm.
    + now apply IH.
Qed.

Lemma regex_match_at_start (r : list piece) (s : string) (m : list string) :
  match_pieces r s [] = Some m -> regex_match r s = Some m.
Proof. intros H. destruct s; simpl; now rewrite H. Qed.

(** A lazy group takes the shortest text after which the rest of the pattern
    matches. *)
Lemma lazy_dots_shortest {A : Type} (k : string -> string -> option A)
  (p rest taken : string) (r : A) :
  p <> "" ->
  dot_text p = true ->
  k (taken ++ p) rest = Some r ->
  (forall p1 p2, p = p1 ++ p2 -> p1 <> "" -> p2 <> "" ->
                 k (taken ++ p1) (p2 ++ rest) = None) ->
  lazy_dots k (p ++ rest) taken = Some r.
Proof.
  revert taken. induction p as [|c p IH]; intros taken Hne Hdot Hk Hshort.
  - contradiction Hne. reflexivity.
  - simpl in Hdot. apply andb_true_iff in Hdot. destruct Hdot as [Hc Hdot].
    apply negb_true_iff in Hc. simpl. rewrite Hc.
    destruct p as [|c' p].
    + simpl. now rewrite Hk.
    + rewrite (Hshort (String c "") (String c' p)); try discriminate;
        [|reflexivity].
      apply IH.
      * discriminate.
      * exact Hdot.
      * rewrite string_app_assoc. exact Hk.
      * intros p1 p2 Hp Hp1 Hp2. rewrite string_app_assoc. simpl.
        apply (Hshort (String c p1) p2); [|discriminate|exact Hp2].
        simpl. now rewrite Hp.
Qed.

Lemma has_char_split_head (c : ascii) (p1 p2 : string) :
  has_char c (p1 ++ p2) = false -> p2 <> "" ->
  exists c' p2', p2 = String c' p2' /\ Ascii.eqb c c' = false.
Proof.
  intros H Hne. rewrite has_char_app in H. apply orb_false_iff in H.
  destruct H as [_ H]. destruct p2 as [|c' p2']; [contradiction Hne; reflexivity|].
  simpl in H. apply orb_false_iff in H. destruct H as [H _].
  exists c', p2'. split; [reflexivity|]. now rewrite Ascii.eqb_sym.
Qed.

Ltac regex_step :=
  cbn beta iota delta [match_pieces append app];
  rewrite ?Ascii.eqb_refl;
  cbn beta iota delta [match_pieces append app].

(** A line [<id> <version> "<name>"] whose id and version hold no space and
    whose three parts hold no line terminator gives exactly these three
    captures. *)
Lemma plugin_pattern_on_well_formed_line (id version name : string) :
  id <> "" -> version <> "" -> name <> "" ->
  has_char " " id = false -> has_char " " version = false ->
  dot_text id = true -> dot_text version = true -> dot_text name = true ->
  regex_match plugin_pattern
    (id ++ " " ++ version ++ " " ++ String quote (name ++ String quote ""))
  = Some [id; version; name].
Proof.
  intros Hid Hver Hname Sid Sver Did Dver Dname.
  apply regex_match_at_start. unfold plugin_pattern.
  regex_step. apply lazy_dots_shortest; try assumption.
  - regex_step. apply lazy_dots_shortest; try assumption.
    + regex_step. apply lazy_dots_shortest; try assumption.
      * regex_step. reflexivity.
      * intros p1 p2 Hp Hp1 Hp2. destruct p2 as [|c p2];
          [contradiction Hp2; reflexivity|].
        regex_step. destruct (Ascii.eqb quote c); [|reflexivity].
        destruct p2; reflexivity.
    + intros p1 p2 Hp Hp1 Hp2. rewrite Hp in Sver.
      destruct (has_char_split_head _ _ _ Sver Hp2) as [c [p2' [-> Hc]]].
      regex_step. now rewrite Hc.
  - intros p1 p2 Hp Hp1 Hp2. rewrite Hp in Sid.
    destruct (has_char_split_head _ _ _ Sid Hp2) as [c [p2' [-> Hc]]].
    regex_step. now rewrite Hc.
Qed.

(** An entry [<id> <version>] whose id holds no space gives these two
    captures; the version runs to the end of the entry. *)
Lemma platform_pattern_on_well_formed_entry (id version : string) :
  id <> "" -> version <> "" ->
  has_char " " id = false ->
  dot_text id = true -> dot_text version = true ->
  regex_match platform_pattern (id ++ " " ++ version) = Some [id; version].
Proof.
  intros Hid Hver Sid Did Dver.
  apply regex_match_at_start. unfold platform_pattern.
  regex_step. apply lazy_dots_shortest; try assumption.
  - regex_step.
    rewrite <- (string_app_empty_r version) at 1.
    apply lazy_dots_shortest; try assumption.
    + reflexivity.
    + intros p1 p2 Hp Hp1 Hp2. rewrite string_app_empty_r.
      destruct p2; [contradiction Hp2; reflexivity|reflexivity].
  - intros p1 p2 Hp Hp1 Hp2. rewrite Hp in Sid.
    destruct (has_char_split_head _ _ _ Sid Hp2) as [c [p2' [-> Hc]]].
    regex_step. now rewrite Hc.
Qed.

(** ** getPlugins and getPlatforms *)

Lemma fold_left_push {A B : Type} (f : B -> list A) (step : list A -> B -> list A)
  (items : list B) (acc : list A) :
  (forall acc item, step acc item = (acc ++ f item)%list) ->
  fold_left step items acc = (acc ++ flat_map f items)%list.
Proof.
  intros Hstep. revert acc.
  induction items as [|item items IH]; intros acc; simpl.
  - now rewrite app_nil_r.
  - rewrite IH, Hstep, <- app_assoc. reflexivity.
Qed.

Lemma getPlugins_item_push (plugins : list CordovaPluginInfo)
  (item : string) :
  getPlugins_item plugins item = (plugins ++ plugin_of_line item)%list.
Proof.
  unfold getPlugins_item, plugin_of_line.
  destruct (regex_match plugin_pattern item); [reflexivity|].
  now rewrite app_nil_r.
Qed.

Lemma getPlugins_then_spec (text : string) :
  getPlugins_then text = flat_map plugin_of_line (JS.split newline text).
Proof.
  unfold getPlugins_then.
  now rewrite (fold_left_push plugin_of_line) by apply getPlugins_item_push.
Qed.

Lemma plugin_of_line_length (line : string) :
  List.length (plugin_of_line line)
  = if matches_plugin_pattern line then 1 else 0.
Proof.
  unfold plugin_of_line, matches_plugin_pattern.
  destruct (regex_match plugin_pattern line); reflexivity.
Qed.

Lemma flat_map_plugin_length (lines : list string) :
  List.length (flat_map plugin_of_line lines)
  = List.length (filter matches_plugin_pattern lines).
Proof.
  induction lines as [|line lines IH]; simpl; [reflexivity|].
  rewrite length_app, plugin_of_line_length, IH.
  destruct (matches_plugin_pattern line); reflexivity.
Qed.

Lemma truthy_nonempty (x : string) : JS.truthy x = true -> x <> "".
Proof. destruct x; [discriminate|discriminate]. Qed.

Lemma plugin_of_well_formed_line (id version name : string) :
  well_formed_plugin id version name = true ->
  plugin_of_line (plugin_line id version name)
  = [mkPluginInfo id version name].
Proof.
  unfold well_formed_plugin. rewrite !andb_true_iff, !negb_true_iff.
  intros [[[[[[[Hi Hv] Hn] Si] Sv] Di] Dv] Dn].
  unfold plugin_of_line, plugin_line.
  rewrite plugin_pattern_on_well_formed_line;
    auto using truthy_nonempty.
Qed.

Lemma flat_map_plugin_none (lines : list string) :
  (forall line, In line lines -> matches_plugin_pattern line = false) ->
  flat_map plugin_of_line lines = [].
Proof.
  intros H. apply length_zero_iff_nil. rewrite flat_map_plugin_length.
  apply length_zero_iff_nil.
  induction lines as [|line lines IH]; [reflexivity|].
  simpl. rewrite (H line (or_introl eq_refl)). apply IH.
  intros l Hl. apply H. now right.
Qed.

Lemma getPlatforms_pair_push (installed : list CordovaPlatformInfo)
  (platformPair : string) :
  getPlatforms_pair installed platformPair
  = (installed ++ platform_of_entry (JS.trim platformPair))%list.
Proof.
  unfold getPlatforms_pair, platform_of_entry.
  destruct (regex_match platform_pattern (JS.trim platformPair));
    [reflexivity|].
  now rewrite app_nil_r.
Qed.

Lemma getPlatforms_line_push (installed : list CordovaPlatformInfo)
  (line : string) :
  getPlatforms_line installed line
  = (installed ++ platforms_of_line line)%list.
Proof.
  unfold getPlatforms_line, platforms_of_line.
  rewrite indexOf_zero_prefix.
  destruct (prefix "Installed platforms: " line).
  - change (String.length "Installed platforms: ") with 21.
    now rewrite (fold_left_push
                   (fun entry => platform_of_entry (JS.trim entry)))
      by apply getPlatforms_pair_push.
  - now rewrite app_nil_r.
Qed.

Lemma platform_of_well_formed_entry (id version : string) :
  well_formed_platform id version = true ->
  platform_of_entry (platform_entry id version)
  = [mkPlatformInfo id version].
Proof.
  unfold well_formed_platform. rewrite !andb_true_iff, !negb_true_iff.
  intros [[[[Hi Hv] Si] Di] Dv].
  unfold platform_of_entry, platform_entry.
  rewrite platform_pattern_on_well_formed_entry;
    auto using truthy_nonempty.
Qed.

(** X13: [getInfo], [getPlugins] and [getPlatforms] fulfil with the parsed
    output of a child that exits with a number as its code, whatever the
    code: a failed listing is parsed like a successful one. *)
Lemma queries_parse_the_output (host : Host) (this : CordovaProject)
  (chunks : list string) (code : Z) (signal : option string)
  (later : list child_event) :
  (spawned_child host "cordova info" (Some (_path this))
   = (map Data chunks ++ Exit (Some code) signal :: later)%list ->
   getInfo host this = Fulfilled (getInfo_then (accumulated chunks)))
  /\ (spawned_child host "cordova plugin list" (Some (_path this))
      = (map Data chunks ++ Exit (Some code) signal :: later)%list ->
      getPlugins host this = Fulfilled (getPlugins_then (accumulated chunks)))
  /\ (spawned_child host "cordova platform list" (Some (_path this))
      = (map Data chunks ++ Exit (Some code) signal :: later)%list ->
      getPlatforms host this
      = Fulfilled (getPlatforms_then (accumulated chunks))).
Proof.
  repeat split; intros H;
    unfold getInfo, getPlugins, getPlatforms;
    rewrite (wrapStringAction_exit _ _ _ _ _ _ _ H); reflexivity.
Qed.

(** * Further properties *)

(** ** Tokenization of command lines *)

Lemma split_ws_from_char (c : ascii) (s cur : string) (in_run : bool) :
  JS.is_whitespace c = false ->
  JS.split_ws_from (String c s) cur in_run
  = JS.split_ws_from s (cur ++ String c "") false.
Proof. intros H. simpl. now rewrite H. Qed.

Lemma split_ws_from_blank (c : ascii) (s cur : string) :
  JS.is_whitespace c = true ->
  JS.split_ws_from (String c s) cur false
  = cur :: JS.split_ws_from s "" true.
Proof. intros H. simpl. now rewrite H. Qed.

Lemma split_ws_from_run (c : ascii) (s cur : string) :
  JS.is_whitespace c = true ->
  JS.split_ws_from (String c s) cur true = JS.split_ws_from s cur true.
Proof. intros H. simpl. now rewrite H. Qed.

Lemma split_ws_from_no_whitespace (w s cur : string) :
  no_whitespace w = true ->
  JS.split_ws_from (w ++ s) cur false = JS.split_ws_from s (cur ++ w) false.
Proof.
  revert cur. induction w as [|c w IH]; intros cur H.
  - simpl. now rewrite string_app_empty_r.
  - simpl in H. apply andb_true_iff in H. destruct H as [Hc Hw].
    apply negb_true_iff in Hc. simpl append.
    rewrite split_ws_from_char by exact Hc. rewrite (IH _ Hw).
    now rewrite string_app_assoc.
Qed.

(** A word at the front of the input is read as a whole, whether or not a
    run of white space precedes it. *)
Lemma split_ws_from_word (w s : string) (in_run : bool) :
  word w = true ->
  JS.split_ws_from (w ++ s) "" in_run = JS.split_ws_from s w false.
Proof.
  unfold word. intros H. apply andb_true_iff in H. destruct H as [Hne Hw].
  destruct w as [|c w]; [discriminate Hne|].
  simpl in Hw. apply andb_true_iff in Hw. destruct Hw as [Hc Hw].
  apply negb_true_iff in Hc. simpl append.
  rewrite split_ws_from_char by exact Hc.
  now rewrite (split_ws_from_no_whitespace _ _ _ Hw).
Qed.

Lemma tokens_cons (w s : string) (in_run : bool) :
  word w = true ->
  JS.split_ws_from (w ++ String " " s) "" in_run
  = w :: JS.split_ws_from s "" true.
Proof.
  intros H. rewrite (split_ws_from_word _ _ _ H).
  now rewrite split_ws_from_blank.
Qed.

Lemma tokens_last (w : string) (in_run : bool) :
  word w = true -> JS.split_ws_from w "" in_run = [w].
Proof.
  intros H. rewrite <- (string_app_empty_r w) at 1.
  now rewrite (split_ws_from_word _ _ _ H).
Qed.

Lemma tokens_of_words (words : list string) (w : string) (in_run : bool) :
  word w = true -> forallb word words = true ->
  JS.split_ws_from (JS.join " " (w :: words)) "" in_run = w :: words.
Proof.
  revert w in_run. induction words as [|w' words IH]; intros w in_run Hw Hws.
  - simpl. now apply tokens_last.
  - simpl in Hws. apply andb_true_iff in Hws. destruct Hws as [Hw' Hws].
    change (JS.join " " (w :: w' :: words))
      with (w ++ String " " (JS.join " " (w' :: words))).
    rewrite (tokens_cons _ _ _ Hw). f_equal. now apply IH.
Qed.

Lemma split_ws_from_tokens (s cur : string) (in_run : bool) (t : string) :
  no_whitespace cur = true ->
  In t (JS.split_ws_from s cur in_run) -> no_whitespace t = true.
Proof.
  revert cur in_run. induction s as [|c s IH]; intros cur in_run Hcur Hin.
  - simpl in Hin. destruct Hin as [<-|[]]. exact Hcur.
  - simpl in Hin. destruct (JS.is_whitespace c) eqn:Hc.
    + destruct in_run.
      * eapply IH; eassumption.
      * destruct Hin as [<-|Hin]; [exact Hcur|].
        eapply IH; [|exact Hin]. reflexivity.
    + eapply IH; [|exact Hin].
      clear - Hcur Hc. induction cur as [|x cur IHc]; simpl.
      * now rewrite Hc.
      * simpl in Hcur. apply andb_true_iff in Hcur.
        destruct Hcur as [Hx Hcur]. now rewrite Hx, (IHc Hcur).
Qed.

(** X1: no token that [wrapVoidAction] and [wrapStringAction] obtain from a
    command line holds white space, so an argument with a blank inside never
    reaches the tool in one piece. *)
Theorem tokens_hold_no_whitespace (commandLine token : string) :
  In token (JS.split_ws commandLine) -> no_whitespace token = true.
Proof. apply split_ws_from_tokens. reflexivity. Qed.

Lemma tokens_hold_no_whitespace_witness :
  no_whitespace "--target=Nexus" = true.
Proof.
  apply (tokens_hold_no_whitespace
           "cordova run android --target=Nexus 5" "--target=Nexus").
  simpl. tauto.
Defined.


(** ** The process each command spawns *)

Lemma tokens_literal_cordova (rest : string) (in_run : bool) :
  JS.split_ws_from ("cordova " ++ rest) "" in_run
  = "cordova" :: JS.split_ws_from rest "" true.
Proof. exact (tokens_cons "cordova" rest in_run eq_refl). Qed.

Lemma tokens_end_of_run :
  JS.split_ws_from "" "" true = [""].
Proof. reflexivity. Qed.

Lemma platformCommand_cmd_tokens (commandName : string)
  (platform_ : option string) (args : option (list string)) :
  word commandName = true ->
  word_or_falsy platform_ = true ->
  all_words args = true ->
  JS.split_ws (platformCommand_cmd commandName platform_ args)
  = "cordova" :: commandName :: platformCommand_args platform_ args.
Proof.
  intros Hverb Hp Ha. unfold platformCommand_cmd, platformCommand_args,
    supplied, JS.split_ws.
  assert (Hcases :
            truthy_string platform_ = false
            \/ (truthy_string platform_ = true
                /\ word (string_or_empty platform_) = true)).
  { destruct platform_ as [q|]; [|now left]. simpl in Hp |- *.
    destruct (JS.truthy q); [right|now left]. now split. }
  destruct Hcases as [Hf|[Ht Hw]].
  - rewrite Hf.
    destruct args as [[|a l]|]; normalize_append;
      rewrite tokens_literal_cordova; cbn [append JS.join];
      rewrite (tokens_cons _ _ _ Hverb).
    + reflexivity.
    + simpl in Ha. apply andb_true_iff in Ha. destruct Ha as [Ha Hl].
      rewrite split_ws_from_run by reflexivity.
      now rewrite (tokens_of_words _ _ _ Ha Hl).
    + reflexivity.
  - rewrite Ht.
    destruct args as [[|a l]|]; normalize_append;
      rewrite tokens_literal_cordova; cbn [append];
      rewrite (tokens_cons _ _ _ Hverb).
    + rewrite (tokens_cons _ _ _ Hw). reflexivity.
    + simpl in Ha. apply andb_true_iff in Ha. destruct Ha as [Ha Hl].
      rewrite (tokens_cons _ _ _ Hw).
      now rewrite (tokens_of_words _ _ _ Ha Hl).
    + now rewrite (tokens_last _ _ Hw).
Qed.

(** X2: [prepare], [compile], [build], [run] and [emulate] spawn the tool
    with the verb, the platform when truthy and the extra arguments, when
    these are words. Where neither platform nor extra arguments are given, or
    the extra arguments are an empty array, the command line ends in a blank
    and the tool gets an empty string as its last argument. *)
Theorem platformCommand_spawns (host : Host) (this : CordovaProject)
  (commandName : string) (platform_ : option string)
  (args : option (list string)) :
  word commandName = true ->
  word_or_falsy platform_ = true ->
  all_words args = true ->
  platformCommand host this commandName platform_ args
  = result (run_child void_handle
              (safeSpawn host "cordova"
                 (commandName :: platformCommand_args platform_ args)
                 (spawn_cwd host (Some (_path this))))).
Proof.
  intros Hverb Hp Ha. unfold platformCommand, wrapVoidAction.
  rewrite (platformCommand_cmd_tokens _ _ _ Hverb Hp Ha). reflexivity.
Qed.

Lemma platformCommand_spawns_witness :
  build failing_host (mkCordovaProject "app") None None
  = result (run_child void_handle
              (safeSpawn failing_host "cordova" ["build"; ""] "app"))
  /\ run failing_host (mkCordovaProject "app") (Some "android")
         (Some ["--device"; "--release"])
     = result (run_child void_handle
                 (safeSpawn failing_host "cordova"
                    ["run"; "android"; "--device"; "--release"] "app")).
Proof.
  split.
  - apply (platformCommand_spawns failing_host (mkCordovaProject "app")
             "build" None None); reflexivity.
  - apply (platformCommand_spawns failing_host (mkCordovaProject "app")
             "run" (Some "android") (Some ["--device"; "--release"]));
      reflexivity.
Defined.

Lemma tokens_cons_literal (w lit s : string) (in_run : bool) :
  word w = true ->
  JS.split_ws_from (w ++ String " " lit ++ s) "" in_run
  = w :: JS.split_ws_from (lit ++ s) "" true.
Proof. intros H. exact (tokens_cons w (lit ++ s) in_run H). Qed.

Lemma tokens_literal_plugin_add (rest : string) :
  JS.split_ws_from ("cordova plugin add " ++ rest) "" false
  = "cordova" :: "plugin" :: "add" :: JS.split_ws_from rest "" true.
Proof. reflexivity. Qed.

Lemma tokens_literal_plugin_remove (rest : string) :
  JS.split_ws_from ("cordova plugin remove " ++ rest) "" false
  = "cordova" :: "plugin" :: "remove" :: JS.split_ws_from rest "" true.
Proof. reflexivity. Qed.

Lemma tokens_literal_platform_add (rest : string) :
  JS.split_ws_from ("cordova platform add " ++ rest) "" false
  = "cordova" :: "platform" :: "add" :: JS.split_ws_from rest "" true.
Proof. reflexivity. Qed.

Lemma tokens_literal_platform_remove (rest : string) :
  JS.split_ws_from ("cordova platform remove " ++ rest) "" false
  = "cordova" :: "platform" :: "remove" :: JS.split_ws_from rest "" true.
Proof. reflexivity. Qed.

Lemma tokens_literal_platform_update (rest : string) :
  JS.split_ws_from ("cordova platform update" ++ " " ++ rest) "" false
  = "cordova" :: "platform" :: "update" :: JS.split_ws_from rest "" true.
Proof. reflexivity. Qed.

Lemma tokens_literal_searchpath (rest : string) :
  JS.split_ws_from ("--searchpath " ++ rest) "" true
  = "--searchpath" :: JS.split_ws_from rest "" true.
Proof. reflexivity. Qed.

(** The rest of a command line: a word and then flags that are written out. *)
Ltac tokens_of_word_and_flags H :=
  cbn [append];
  first [ rewrite (tokens_cons _ _ _ H) | rewrite (tokens_last _ _ H) ];
  reflexivity.

Lemma addPlatform_cmd_tokens (searchSpec : string)
  (options : option PlatformAddOptions) :
  word searchSpec = true ->
  JS.split_ws (addPlatform_cmd searchSpec options)
  = "cordova" :: "platform" :: "add" :: searchSpec
      :: addPlatform_flags options.
Proof.
  intros H. unfold addPlatform_cmd, addPlatform_flags, flag, JS.split_ws.
  destruct options as [o|].
  - destruct (truthy_flag (useGit o)), (truthy_flag (pl_save o)),
      (truthy_flag (pl_link o));
      normalize_append; rewrite tokens_literal_platform_add;
      tokens_of_word_and_flags H.
  - rewrite tokens_literal_platform_add. tokens_of_word_and_flags H.
Qed.

Lemma update_cmd_tokens (name : option string)
  (options : option PlatformAddOptions) :
  word_or_falsy name = true ->
  JS.split_ws (update_cmd name options)
  = ("cordova" :: "platform" :: "update" :: supplied name
       ++ update_flags options)%list.
Proof.
  intros Hn. unfold update_cmd, update_flags, flag, supplied, JS.split_ws.
  assert (Hcases :
            truthy_string name = false
            \/ (truthy_string name = true
                /\ word (string_or_empty name) = true)).
  { destruct name as [q|]; [|now left]. simpl in Hn |- *.
    destruct (JS.truthy q); [right|now left]. now split. }
  destruct Hcases as [Hf|[Ht Hw]].
  - rewrite Hf. destruct options as [o|]; [|reflexivity].
    destruct (truthy_flag (useGit o)), (truthy_flag (pl_save o));
      reflexivity.
  - rewrite Ht. destruct options as [o|].
    + destruct (truthy_flag (useGit o)), (truthy_flag (pl_save o));
        normalize_append; rewrite tokens_literal_platform_update;
        tokens_of_word_and_flags Hw.
    + rewrite tokens_literal_platform_update. tokens_of_word_and_flags Hw.
Qed.

Lemma removePlugin_cmd_tokens (pluginId : string)
  (options : option ComponentRemoveOptions) :
  word pluginId = true ->
  JS.split_ws (removePlugin_cmd pluginId options)
  = "cordova" :: "plugin" :: "remove" :: pluginId :: remove_flags options.
Proof.
  intros H. unfold removePlugin_cmd, remove_flags, flag, JS.split_ws.
  destruct options as [o|].
  - destruct (truthy_flag (cr_save o));
      normalize_append; rewrite tokens_literal_plugin_remove;
      tokens_of_word_and_flags H.
  - rewrite tokens_literal_plugin_remove. tokens_of_word_and_flags H.
Qed.

Lemma removePlatform_cmd_tokens (name : string)
  (options : option ComponentRemoveOptions) :
  word name = true ->
  JS.split_ws (removePlatform_cmd name options)
  = "cordova" :: "platform" :: "remove" :: name :: remove_flags options.
Proof.
  intros H. unfold removePlatform_cmd, remove_flags, flag, JS.split_ws.
  destruct options as [o|].
  - destruct (truthy_flag (cr_save o));
      normalize_append; rewrite tokens_literal_platform_remove;
      tokens_of_word_and_flags H.
  - rewrite tokens_literal_platform_remove. tokens_of_word_and_flags H.
Qed.

Lemma quoted_word (joined : string) :
  no_whitespace joined = true -> word (String quote joined) = true.
Proof. intros H. unfold word. simpl. exact H. Qed.

Lemma addPlugin_cmd_tokens (host : Host) (searchSpec : string)
  (options : option PluginAddOptions) :
  word searchSpec = true ->
  searchpath_is_word host options = true ->
  JS.split_ws (addPlugin_cmd host searchSpec options)
  = ("cordova" :: "plugin" :: "add" :: searchSpec
       :: searchpath_args host options ++ addPlugin_flags options)%list.
Proof.
  intros H Hsp.
  unfold addPlugin_cmd, addPlugin_flags, searchpath_args, flag, JS.split_ws.
  destruct options as [[paths f1 f2 f3 f4 f5]|].
  - cbn [searchPaths noRegistry pa_link pa_save shrinkwrap
           experimentalBrowserify].
    destruct paths as [paths|].
    + simpl in Hsp.
      remember (JS.join (if isWindows host then ";" else ":") paths)
        as joined eqn:Hj.
      clear Hj. apply quoted_word in Hsp.
      destruct (truthy_flag f1), (truthy_flag f2), (truthy_flag f3),
        (truthy_flag f4), (truthy_flag f5);
        normalize_append; rewrite tokens_literal_plugin_add;
        rewrite (tokens_cons_literal _ _ _ _ H);
        rewrite tokens_literal_searchpath; cbn [append];
        first [ rewrite (tokens_last _ _ Hsp); reflexivity
              | match goal with
                | |- context [String quote (joined ++ ?F)] =>
                    change (String quote (joined ++ F))
                      with (String quote joined ++ F)
                end;
                rewrite (tokens_cons _ _ _ Hsp); reflexivity ].
    + destruct (truthy_flag f1), (truthy_flag f2), (truthy_flag f3),
        (truthy_flag f4), (truthy_flag f5);
        normalize_append; rewrite tokens_literal_plugin_add;
        tokens_of_word_and_flags H.
  - rewrite tokens_literal_plugin_add. tokens_of_word_and_flags H.
Qed.

(** X3: [addPlugin] spawns the tool with plugin, add, the search
    specification, then --searchpath and the joined paths behind a double
    quote when the option is present, then the flags of the truthy options
    in the order --noregistry, --link, --save, --shrinkwrap, --browserify. *)
Theorem addPlugin_spawns (host : Host) (this : CordovaProject)
  (searchSpec : string) (options : option PluginAddOptions) :
  word searchSpec = true ->
  searchpath_is_word host options = true ->
  addPlugin host this searchSpec options
  = result (run_child void_handle
              (safeSpawn host "cordova"
                 ("plugin" :: "add" :: searchSpec
                    :: searchpath_args host options
                    ++ addPlugin_flags options)%list
                 (spawn_cwd host (Some (_path this))))).
Proof.
  intros H Hsp. unfold addPlugin, wrapVoidAction.
  rewrite (addPlugin_cmd_tokens _ _ _ H Hsp). reflexivity.
Qed.

Lemma addPlugin_spawns_witness :
  addPlugin project_host (mkCordovaProject "app") "cordova-plugin-camera"
    (Some (mkPluginAddOptions (Some ["plugins"; "vendor"]) (Some false)
                              (Some true) None None (Some true)))
  = result (run_child void_handle
              (safeSpawn project_host "cordova"
                 ["plugin"; "add"; "cordova-plugin-camera"; "--searchpath";
                  String quote "plugins:vendor"; "--link"; "--browserify"]
                 "app")).
Proof.
  apply (addPlugin_spawns project_host (mkCordovaProject "app")
           "cordova-plugin-camera"
           (Some (mkPluginAddOptions (Some ["plugins"; "vendor"])
                    (Some false) (Some true) None None (Some true))));
    reflexivity.
Defined.

(** X4: [addPlatform] spawns the tool with platform, add, the search
    specification and the flags --usegit, --save, --link of the truthy
    options in that order; [update] with platform, update, the name when
    truthy, and --usegit, --save, never --link. *)
Theorem addPlatform_update_spawn (host : Host) (this : CordovaProject)
  (options : option PlatformAddOptions) :
  (forall searchSpec : string,
      word searchSpec = true ->
      addPlatform host this searchSpec options
      = result (run_child void_handle
                  (safeSpawn host "cordova"
                     ("platform" :: "add" :: searchSpec
                        :: addPlatform_flags options)
                     (spawn_cwd host (Some (_path this))))))
  /\ (forall name : option string,
        word_or_falsy name = true ->
        update host this name options
        = result (run_child void_handle
                    (safeSpawn host "cordova"
                       ("platform" :: "update" :: supplied name
                          ++ update_flags options)%list
                       (spawn_cwd host (Some (_path this)))))).
Proof.
  split.
  - intros searchSpec H. unfold addPlatform, wrapVoidAction.
    rewrite (addPlatform_cmd_tokens _ _ H). reflexivity.
  - intros name H. unfold update, wrapVoidAction.
    rewrite (update_cmd_tokens _ _ H). reflexivity.
Qed.

Lemma addPlatform_update_spawn_witness :
  addPlatform project_host (mkCordovaProject "app") "android@6.0.0"
    (Some (mkPlatformAddOptions (Some true) None (Some true)))
  = result (run_child void_handle
              (safeSpawn project_host "cordova"
                 ["platform"; "add"; "android@6.0.0"; "--usegit"; "--link"]
                 "app"))
  /\ update project_host (mkCordovaProject "app") (Some "android")
       (Some (mkPlatformAddOptions (Some true) None (Some true)))
     = result (run_child void_handle
                 (safeSpawn project_host "cordova"
                    ["platform"; "update"; "android"; "--usegit"] "app")).
Proof.
  split.
  - apply (proj1 (addPlatform_update_spawn project_host
                    (mkCordovaProject "app")
                    (Some (mkPlatformAddOptions (Some true) None
                                                (Some true))))
                 "android@6.0.0").
    reflexivity.
  - apply (proj2 (addPlatform_update_spawn project_host
                    (mkCordovaProject "app")
                    (Some (mkPlatformAddOptions (Some true) None
                                                (Some true))))
                 (Some "android")).
    reflexivity.
Defined.

(** X5: [removePlugin] and [removePlatform] spawn the tool with plugin (or
    platform), remove, the identifier and --save when that option is
    truthy. *)
Theorem remove_commands_spawn (host : Host) (this : CordovaProject)
  (target : string) (options : option ComponentRemoveOptions) :
  word target = true ->
  removePlugin host this target options
  = result (run_child void_handle
              (safeSpawn host "cordova"
                 ("plugin" :: "remove" :: target :: remove_flags options)
                 (spawn_cwd host (Some (_path this)))))
  /\ removePlatform host this target options
     = result (run_child void_handle
                 (safeSpawn host "cordova"
                    ("platform" :: "remove" :: target
                       :: remove_flags options)
                    (spawn_cwd host (Some (_path this))))).
Proof.
  intros H. split.
  - unfold removePlugin, wrapVoidAction.
    rewrite (removePlugin_cmd_tokens _ _ H). reflexivity.
  - unfold removePlatform, wrapVoidAction.
    rewrite (removePlatform_cmd_tokens _ _ H). reflexivity.
Qed.

Lemma remove_commands_spawn_witness :
  removePlugin project_host (mkCordovaProject "app") "cordova-plugin-camera"
    (Some (mkComponentRemoveOptions (Some true)))
  = result (run_child void_handle
              (safeSpawn project_host "cordova"
                 ["plugin"; "remove"; "cordova-plugin-camera"; "--save"]
                 "app")).
Proof.
  apply (proj1 (remove_commands_spawn project_host (mkCordovaProject "app")
                  "cordova-plugin-camera"
                  (Some (mkComponentRemoveOptions (Some true)))
                  eq_refl)).
Defined.

(** ** The platform test *)

Lemma string_eqb_cons (a b : ascii) (s t : string) :
  String.eqb (String a s) (String b t) = Ascii.eqb a b && String.eqb s t.
Proof. reflexivity. Qed.

Lemma toUpperCase_char_W (c : ascii) :
  Ascii.eqb (toUpperCase_char c) "W" = is_letter "w" "W" c.
Proof. destruct c as [[] [] [] [] [] [] [] []]; reflexivity. Qed.

Lemma toUpperCase_char_I (c : ascii) :
  Ascii.eqb (toUpperCase_char c) "I" = is_letter "i" "I" c.
Proof. destruct c as [[] [] [] [] [] [] [] []]; reflexivity. Qed.

Lemma toUpperCase_char_N (c : ascii) :
  Ascii.eqb (toUpperCase_char c) "N" = is_letter "n" "N" c.
Proof. destruct c as [[] [] [] [] [] [] [] []]; reflexivity. Qed.

(** X6: [isWindows] looks at the first three characters of
    [process.platform] only: it holds exactly when they are w, i, n in either
    letter case, whatever follows, and fails for a shorter name. *)
Theorem isWindows_first_three_letters (host : Host) :
  isWindows host
  = match platform host with
    | String c1 (String c2 (String c3 _)) =>
        is_letter "w" "W" c1 && is_letter "i" "I" c2 && is_letter "n" "N" c3
    | _ => false
    end.
Proof.
  unfold isWindows.
  destruct (platform host) as [|c1 [|c2 [|c3 rest]]];
    cbn [substring toUpperCase];
    rewrite ?string_eqb_cons, ?toUpperCase_char_W, ?toUpperCase_char_I,
      ?toUpperCase_char_N.
  - reflexivity.
  - cbn [String.eqb]. now rewrite andb_false_r.
  - cbn [String.eqb]. now rewrite !andb_false_r.
  - destruct rest; cbn [substring String.eqb];
      now rewrite andb_true_r, andb_assoc.
Qed.

(** ** What a match of the patterns says about the text *)

Lemma lazy_dots_sound {A : Type} (k : string -> string -> option A)
  (s taken : string) (r : A) :
  lazy_dots k s taken = Some r ->
  exists p rest,
    JS.truthy p = true /\ dot_text p = true /\ s = p ++ rest
    /\ k (taken ++ p) rest = Some r.
Proof.
  revert taken. induction s as [|c s IH]; intros taken H; simpl in H.
  - discriminate H.
  - destruct (JS.is_line_terminator c) eqn:Hc; [discriminate H|].
    destruct (k (taken ++ String c "") s) as [r'|] eqn:Hk.
    + injection H as <-. exists (String c ""), s. simpl. rewrite Hc.
      repeat split. exact Hk.
    + destruct (IH _ H) as [p [rest [Hne [Hdot [Hs Hkp]]]]].
      exists (String c p), rest. simpl. rewrite Hc, Hdot.
      repeat split.
      * now rewrite Hs.
      * rewrite string_app_assoc in Hkp. exact Hkp.
Qed.

Lemma match_chr (c : ascii) (r : list piece) (s : string)
  (caps m : list string) :
  match_pieces (Chr c :: r) s caps = Some m ->
  exists s', s = String c s' /\ match_pieces r s' caps = Some m.
Proof.
  cbn [match_pieces]. destruct s as [|c' s']; [discriminate|].
  destruct (Ascii.eqb c c') eqn:Hc; [|discriminate].
  apply Ascii.eqb_eq in Hc. subst c'. intros H. now exists s'.
Qed.

Lemma match_end (s : string) (caps m : list string) :
  match_pieces [EndOfInput] s caps = Some m -> s = "" /\ m = caps.
Proof.
  cbn [match_pieces]. destruct s; [|discriminate].
  intros H. injection H as <-. now split.
Qed.

Lemma match_group (r : list piece) (s : string) (caps m : list string) :
  match_pieces (LazyGroup :: r) s caps = Some m ->
  exists p rest,
    JS.truthy p = true /\ dot_text p = true /\ s = p ++ rest
    /\ match_pieces r rest (caps ++ [p])%list = Some m.
Proof.
  cbn [match_pieces]. intros H. apply lazy_dots_sound in H.
  destruct H as [p [rest [Hne [Hdot [Hs Hk]]]]].
  exists p, rest. now repeat split.
Qed.

(** A match of the plugin pattern at the start of a text: the text is
    [<id> <version> "<name>"] and the captures are its three parts. *)
Lemma plugin_pattern_shape (s : string) (m : list string) :
  match_pieces plugin_pattern s [] = Some m ->
  exists id version name,
    (JS.truthy id && JS.truthy version && JS.truthy name
     && dot_text id && dot_text version && dot_text name) = true
    /\ s = plugin_line id version name
    /\ m = [id; version; name].
Proof.
  unfold plugin_pattern. intros H.
  apply match_group in H. destruct H as [id [r1 [Ni [Di [-> H]]]]].
  apply match_chr in H. destruct H as [r2 [-> H]].
  apply match_group in H. destruct H as [version [r3 [Nv [Dv [-> H]]]]].
  apply match_chr in H. destruct H as [r4 [-> H]].
  apply match_chr in H. destruct H as [r5 [-> H]].
  apply match_group in H. destruct H as [name [r6 [Nn [Dn [-> H]]]]].
  apply match_chr in H. destruct H as [r7 [-> H]].
  apply match_end in H. destruct H as [-> ->].
  exists id, version, name. rewrite Ni, Nv, Nn, Di, Dv, Dn.
  repeat split.
Qed.

Lemma platform_pattern_shape (s : string) (m : list string) :
  match_pieces platform_pattern s [] = Some m ->
  exists id version,
    (JS.truthy id && JS.truthy version && dot_text id && dot_text version)
    = true
    /\ s = platform_entry id version
    /\ m = [id; version].
Proof.
  unfold platform_pattern. intros H.
  apply match_group in H. destruct H as [id [r1 [Ni [Di [-> H]]]]].
  apply match_chr in H. destruct H as [r2 [-> H]].
  apply match_group in H. destruct H as [version [r3 [Nv [Dv [-> H]]]]].
  apply match_end in H. destruct H as [-> ->].
  exists id, version. rewrite Ni, Nv, Di, Dv.
  repeat split. unfold platform_entry. now rewrite string_app_empty_r.
Qed.

Lemma regex_match_somewhere (r : list piece) (s : string)
  (m : list string) :
  regex_match r s = Some m ->
  exists before rest, s = before ++ rest /\ match_pieces r rest [] = Some m.
Proof.
  induction s as [|c s IH]; simpl; intros H.
  - destruct (match_pieces r "" []) eqn:Hm; [|discriminate H].
    injection H as <-. now exists "", "".
  - destruct (match_pieces r (String c s) []) eqn:Hm.
    + injection H as <-. now exists "", (String c s).
    + destruct (IH H) as [before [rest [Hs Hr]]].
      exists (String c before), rest. simpl. now rewrite Hs.
Qed.

Lemma ends_with_app (c x : ascii) (a : string) :
  ends_with c (a ++ String x "") = Ascii.eqb x c.
Proof.
  induction a as [|y a IH]; [reflexivity|].
  simpl append. simpl ends_with. rewrite IH.
  destruct a; reflexivity.
Qed.

Lemma plugin_line_ends_with_quote (before id version name : string) :
  ends_with quote (before ++ plugin_line id version name) = true.
Proof.
  unfold plugin_line.
  change (String quote (name ++ String quote ""))
    with (String quote name ++ String quote "").
  rewrite <- !string_app_assoc. now rewrite ends_with_app.
Qed.

(** ** Records and the lines they come from *)

Lemma plugin_of_line_shape (line : string) (p : CordovaPluginInfo) :
  In p (plugin_of_line line) ->
  exists before,
    line = before
           ++ plugin_line (plugin_id p) (plugin_version p) (plugin_name p)
    /\ (JS.truthy (plugin_id p) && JS.truthy (plugin_version p)
        && JS.truthy (plugin_name p) && dot_text (plugin_id p)
        && dot_text (plugin_version p) && dot_text (plugin_name p)) = true.
Proof.
  unfold plugin_of_line.
  destruct (regex_match plugin_pattern line) as [m|] eqn:Hm; [|intros []].
  intros [<-|[]].
  apply regex_match_somewhere in Hm. destruct Hm as [before [rest [-> Hm]]].
  apply plugin_pattern_shape in Hm.
  destruct Hm as [id [version [name [Hok [-> ->]]]]].
  exists before. simpl. now split.
Qed.

(** X7: every record of [getPlugins] comes from a line of the output that
    ends with [<id> <version> "<name>"] for the record's members, and its
    id, version and name are non-empty and hold no line terminator. *)
Theorem getPlugins_records_come_from_lines (text : string)
  (p : CordovaPluginInfo) :
  In p (getPlugins_then text) ->
  exists line before,
    In line (JS.split newline text)
    /\ line = before
              ++ plugin_line (plugin_id p) (plugin_version p) (plugin_name p)
    /\ (JS.truthy (plugin_id p) && JS.truthy (plugin_version p)
        && JS.truthy (plugin_name p) && dot_text (plugin_id p)
        && dot_text (plugin_version p) && dot_text (plugin_name p)) = true.
Proof.
  rewrite getPlugins_then_spec. intros H. apply in_flat_map in H.
  destruct H as [line [Hline Hp]].
  destruct (plugin_of_line_shape _ _ Hp) as [before [Heq Hok]].
  exists line, before. now repeat split.
Qed.

Lemma getPlugins_records_come_from_lines_witness :
  exists line before,
    In line (JS.split newline
               ("No plugins added." ++ String newline
                  ("camera 2.1.0 " ++ String quote "Camera"
                   ++ String quote "")))
    /\ line = before ++ plugin_line "camera" "2.1.0" "Camera"
    /\ (JS.truthy "camera" && JS.truthy "2.1.0" && JS.truthy "Camera"
        && dot_text "camera" && dot_text "2.1.0" && dot_text "Camera")
       = true.
Proof.
  apply (getPlugins_records_come_from_lines
           ("No plugins added." ++ String newline
              ("camera 2.1.0 " ++ String quote "Camera"
               ++ String quote ""))
           (mkPluginInfo "camera" "2.1.0" "Camera")).
  vm_compute. left. reflexivity.
Defined.

Lemma matches_plugin_pattern_ends_with_quote (line : string) :
  ends_with quote line = false -> matches_plugin_pattern line = false.
Proof.
  intros H. unfold matches_plugin_pattern.
  destruct (regex_match plugin_pattern line) as [m|] eqn:Hm; [|reflexivity].
  apply regex_match_somewhere in Hm. destruct Hm as [before [rest [-> Hm]]].
  apply plugin_pattern_shape in Hm.
  destruct Hm as [id [version [name [_ [-> _]]]]].
  now rewrite plugin_line_ends_with_quote in H.
Qed.

(** X8: a line that does not end with a double quote gives no record. So
    output whose lines end with a carriage return (CR LF line ends), or with
    anything else after the closing quote, gives the empty sequence. *)
Theorem getPlugins_needs_closing_quote_last (text : string) :
  (forall line, In line (JS.split newline text) ->
                ends_with quote line = false) ->
  getPlugins_then text = [].
Proof.
  intros H. rewrite getPlugins_then_spec. apply flat_map_plugin_none.
  intros line Hin. apply matches_plugin_pattern_ends_with_quote.
  now apply H.
Qed.

Lemma getPlugins_needs_closing_quote_last_witness :
  getPlugins_then
    ("cordova-plugin-camera 2.1.0 " ++ String quote "Camera"
     ++ String quote (String carriage_return (String newline
          ("cordova-plugin-device 1.1.2 " ++ String quote "Device"
           ++ String quote (String carriage_return
                              (String newline ""))))))
  = [].
Proof.
  apply getPlugins_needs_closing_quote_last.
  intros line Hin. simpl in Hin.
  destruct Hin as [<-|[<-|[<-|[]]]]; reflexivity.
Defined.

Lemma getPlatforms_then_spec (output : string) :
  getPlatforms_then output
  = flat_map platforms_of_line (JS.split newline output).
Proof.
  unfold getPlatforms_then.
  now rewrite (fold_left_push platforms_of_line)
    by apply getPlatforms_line_push.
Qed.

Lemma has_char_middle (c : ascii) (a b : string) :
  has_char c (a ++ String c b) = true.
Proof.
  induction a as [|x a IH]; simpl.
  - now rewrite Ascii.eqb_refl.
  - rewrite IH. apply orb_true_r.
Qed.

Lemma platform_of_entry_shape (entry : string) (p : CordovaPlatformInfo) :
  In p (platform_of_entry entry) ->
  exists before,
    entry = before ++ platform_entry (platform_id p) (platform_version p)
    /\ (JS.truthy (platform_id p) && JS.truthy (platform_version p)
        && dot_text (platform_id p) && dot_text (platform_version p)) = true.
Proof.
  unfold platform_of_entry.
  destruct (regex_match platform_pattern entry) as [m|] eqn:Hm;
    [|intros []].
  intros [<-|[]].
  apply regex_match_somewhere in Hm. destruct Hm as [before [rest [-> Hm]]].
  apply platform_pattern_shape in Hm.
  destruct Hm as [id [version [Hok [-> ->]]]].
  exists before. simpl. now split.
Qed.

(** X9: every record of [getPlatforms] comes from an entry, between commas,
    of a line that begins with the marker; the trimmed entry ends with
    [<id> <version>] for the record's members, which are non-empty. An entry
    without a blank, such as a platform name without its version, gives no
    record. *)
Theorem getPlatforms_records_come_from_entries (output : string) :
  (forall p : CordovaPlatformInfo,
      In p (getPlatforms_then output) ->
      exists line entry before,
        In line (JS.split newline output)
        /\ prefix "Installed platforms: " line = true
        /\ In entry (JS.split "," (JS.substring_from 21 line))
        /\ JS.trim entry
           = before ++ platform_entry (platform_id p) (platform_version p)
        /\ (JS.truthy (platform_id p) && JS.truthy (platform_version p))
           = true)
  /\ (forall entry : string,
        has_char " " entry = false -> platform_of_entry entry = []).
Proof.
  split.
  - intros p H. rewrite getPlatforms_then_spec in H.
    apply in_flat_map in H. destruct H as [line [Hline Hp]].
    unfold platforms_of_line in Hp.
    destruct (prefix "Installed platforms: " line) eqn:Hpre; [|destruct Hp].
    apply in_flat_map in Hp. destruct Hp as [entry [Hentry Hp]].
    destruct (platform_of_entry_shape _ _ Hp) as [before [Heq Hok]].
    exists line, entry, before. repeat split; try assumption.
    rewrite !andb_true_iff in Hok. rewrite andb_true_iff. tauto.
  - intros entry H.
    destruct (platform_of_entry entry) as [|p l] eqn:Hp; [reflexivity|].
    assert (Hin : In p (platform_of_entry entry))
      by (rewrite Hp; now left).
    destruct (platform_of_entry_shape _ _ Hin) as [before [Heq _]].
    rewrite Heq in H. unfold platform_entry in H.
    change (platform_id p ++ " " ++ platform_version p)
      with (platform_id p ++ String " " (platform_version p)) in H.
    rewrite <- string_app_assoc, has_char_middle in H. discriminate H.
Qed.

Lemma getPlatforms_records_come_from_entries_witness :
  (exists line entry before,
      In line (JS.split newline
                 "Installed platforms: android 6.0.0, browser")
      /\ prefix "Installed platforms: " line = true
      /\ In entry (JS.split "," (JS.substring_from 21 line))
      /\ JS.trim entry = before ++ platform_entry "android" "6.0.0"
      /\ (JS.truthy "android" && JS.truthy "6.0.0") = true)
  /\ platform_of_entry "browser" = [].
Proof.
  split.
  - apply (proj1 (getPlatforms_records_come_from_entries
                    "Installed platforms: android 6.0.0, browser")
                 (mkPlatformInfo "android" "6.0.0")).
    vm_compute. left. reflexivity.
  - apply (proj2 (getPlatforms_records_come_from_entries
                    "Installed platforms: android 6.0.0, browser")).
    reflexivity.
Defined.

(** ** Printing records and parsing them back *)

Lemma dot_text_no_newline (x : string) :
  dot_text x = true -> has_char newline x = false.
Proof.
  induction x as [|c x IH]; simpl; [reflexivity|].
  rewrite andb_true_iff, negb_true_iff. intros [Hc Hx].
  rewrite (IH Hx), orb_false_r.
  unfold JS.is_line_terminator in Hc.
  apply orb_false_iff in Hc. destruct Hc as [Hc _].
  apply Nat.eqb_neq in Hc. apply Ascii.eqb_neq. intros ->.
  apply Hc. reflexivity.
Qed.

Lemma plugin_line_no_newline (p : CordovaPluginInfo) :
  well_formed_plugin_info p = true ->
  has_char newline (plugin_line_of p) = false.
Proof.
  unfold well_formed_plugin_info, well_formed_plugin, plugin_line_of,
    plugin_line.
  rewrite !andb_true_iff.
  intros [[[[[[[Hi Hv] Hn] Si] Sv] Di] Dv] Dn].
  rewrite !has_char_app. simpl. rewrite !has_char_app. simpl.
  now rewrite (dot_text_no_newline _ Di), (dot_text_no_newline _ Dv),
    (dot_text_no_newline _ Dn).
Qed.

Lemma plugins_of_printed_lines (ps : list CordovaPluginInfo) :
  forallb well_formed_plugin_info ps = true ->
  flat_map plugin_of_line (map plugin_line_of ps) = ps.
Proof.
  induction ps as [|p ps IH]; simpl; intros H; [reflexivity|].
  apply andb_true_iff in H. destruct H as [Hp Hps].
  unfold plugin_line_of at 1.
  rewrite (plugin_of_well_formed_line _ _ _ Hp), (IH Hps).
  now destruct p.
Qed.

Lemma printed_plugin_lines_no_newline (ps : list CordovaPluginInfo)
  (line : string) :
  forallb well_formed_plugin_info ps = true ->
  In line (map plugin_line_of ps) -> has_char newline line = false.
Proof.
  intros H Hin. apply in_map_iff in Hin. destruct Hin as [p [<- Hp]].
  apply plugin_line_no_newline.
  rewrite forallb_forall in H. now apply H.
Qed.

(** X10: [getPlugins] reads back what the tool prints: for well formed
    records, one line [<id> <version> "<name>"] each, joined by newlines, with
    or without a newline after the last line, the result is the records in
    the same order. *)
Theorem getPlugins_reads_printed_records (ps : list CordovaPluginInfo) :
  forallb well_formed_plugin_info ps = true ->
  getPlugins_then (JS.join (String newline "") (map plugin_line_of ps)) = ps
  /\ getPlugins_then
       (JS.join (String newline "") (map plugin_line_of ps ++ [""])%list)
     = ps.
Proof.
  intros H. rewrite !getPlugins_then_spec. split.
  - destruct ps as [|p ps]; [reflexivity|].
    rewrite split_join.
    + now apply plugins_of_printed_lines.
    + discriminate.
    + intros line. now apply printed_plugin_lines_no_newline.
  - rewrite split_join.
    + rewrite flat_map_app, (plugins_of_printed_lines _ H).
      now rewrite app_nil_r.
    + destruct ps; discriminate.
    + intros line Hin. apply in_app_or in Hin. destruct Hin as [Hin|Hin].
      * eapply printed_plugin_lines_no_newline; eassumption.
      * destruct Hin as [<-|[]]. reflexivity.
Qed.

Lemma getPlugins_reads_printed_records_witness :
  getPlugins_then
    (JS.join (String newline "")
       (map plugin_line_of
          [mkPluginInfo "cordova-plugin-camera" "2.1.0" "Camera";
           mkPluginInfo "cordova-plugin-whitelist" "1.2.1" "Whitelist"]
        ++ [""])%list)
  = [mkPluginInfo "cordova-plugin-camera" "2.1.0" "Camera";
     mkPluginInfo "cordova-plugin-whitelist" "1.2.1" "Whitelist"].
Proof.
  apply (proj2 (getPlugins_reads_printed_records
                  [mkPluginInfo "cordova-plugin-camera" "2.1.0" "Camera";
                   mkPluginInfo "cordova-plugin-whitelist" "1.2.1"
                                "Whitelist"]
                  eq_refl)).
Defined.

Lemma no_whitespace_has_char (c : ascii) (x : string) :
  JS.is_whitespace c = true -> no_whitespace x = true ->
  has_char c x = false.
Proof.
  intros Hc. induction x as [|y x IH]; simpl; [reflexivity|].
  rewrite andb_true_iff, negb_true_iff. intros [Hy Hx].
  rewrite (IH Hx), orb_false_r. apply Ascii.eqb_neq. intros ->.
  rewrite Hc in Hy. discriminate Hy.
Qed.

Lemma no_whitespace_dot_text (x : string) :
  no_whitespace x = true -> dot_text x = true.
Proof.
  induction x as [|c x IH]; simpl; [reflexivity|].
  rewrite andb_true_iff, negb_true_iff. intros [Hc Hx].
  rewrite (IH Hx), andb_true_r. apply negb_true_iff.
  destruct c as [[] [] [] [] [] [] [] []]; try reflexivity;
    discriminate Hc.
Qed.

Lemma trim_end_no_whitespace (w : string) :
  no_whitespace w = true -> JS.trim_end w = w.
Proof.
  induction w as [|c w IH]; simpl; [reflexivity|].
  rewrite andb_true_iff, negb_true_iff. intros [Hc Hw].
  rewrite (IH Hw), Hc. now destruct w.
Qed.

Lemma trim_end_before_word (s w : string) :
  word w = true -> JS.trim_end (s ++ w) = s ++ w.
Proof.
  unfold word. rewrite andb_true_iff. intros [Hne Hw].
  induction s as [|c s IH].
  - now apply trim_end_no_whitespace.
  - simpl. rewrite IH. destruct (s ++ w) eqn:Hsw; [|reflexivity].
    destruct s; [|discriminate Hsw]. simpl in Hsw. subst w.
    discriminate Hne.
Qed.

Lemma trim_start_word (w s : string) :
  word w = true -> JS.trim_start (w ++ s) = w ++ s.
Proof.
  unfold word. rewrite andb_true_iff. intros [Hne Hw].
  destruct w as [|c w]; [discriminate Hne|].
  simpl in Hw. apply andb_true_iff in Hw. destruct Hw as [Hc _].
  apply negb_true_iff in Hc. simpl. now rewrite Hc.
Qed.

(** Trimming leaves a printed entry as it is, and removes the blank that
    follows a comma. *)
Lemma trim_printed_entry (p : CordovaPlatformInfo) :
  well_formed_platform_info p = true ->
  JS.trim (platform_entry_of p) = platform_entry_of p
  /\ JS.trim (String " " (platform_entry_of p)) = platform_entry_of p.
Proof.
  unfold well_formed_platform_info. rewrite !andb_true_iff.
  intros [[[Hi Hv] _] _].
  assert (H : JS.trim (platform_entry_of p) = platform_entry_of p).
  { unfold JS.trim, platform_entry_of, platform_entry.
    rewrite (trim_start_word _ _ Hi).
    change (platform_id p ++ " " ++ platform_version p)
      with (platform_id p ++ String " " "" ++ platform_version p).
    rewrite <- string_app_assoc. now apply trim_end_before_word. }
  split; [exact H|]. exact H.
Qed.

Lemma platform_of_printed_entry (p : CordovaPlatformInfo) :
  well_formed_platform_info p = true ->
  platform_of_entry (platform_entry_of p) = [p].
Proof.
  intros H. unfold platform_entry_of.
  rewrite platform_of_well_formed_entry; [now destruct p|].
  unfold well_formed_platform_info, word in H.
  rewrite !andb_true_iff in H. destruct H as [[[[Ni Wi] [Nv Wv]] _] _].
  unfold well_formed_platform.
  rewrite Ni, Nv, (no_whitespace_dot_text _ Wi),
    (no_whitespace_dot_text _ Wv),
    (no_whitespace_has_char " " _ eq_refl Wi).
  reflexivity.
Qed.

Lemma has_char_join (c : ascii) (sep : string) (items : list string) :
  has_char c sep = false ->
  (forall item, In item items -> has_char c item = false) ->
  has_char c (JS.join sep items) = false.
Proof.
  intros Hsep. induction items as [|x items IH]; intros H; [reflexivity|].
  destruct items as [|y items].
  - simpl. apply H. now left.
  - change (JS.join sep (x :: y :: items))
      with (x ++ sep ++ JS.join sep (y :: items)).
    rewrite !has_char_app, Hsep, (H x (or_introl eq_refl)). simpl.
    apply IH. intros item Hin. apply H. now right.
Qed.

Lemma split_keeps_first_char (sep c : ascii) (s : string) :
  Ascii.eqb c sep = false ->
  JS.split sep (String c s)
  = match JS.split sep s with
    | [] => [String c ""]
    | piece :: rest => String c piece :: rest
    end.
Proof. intros H. simpl. now rewrite H. Qed.

Lemma split_comma_join (entries : list string) (e : string) :
  (forall x, In x (e :: entries) -> has_char "," x = false) ->
  JS.split "," (JS.join ", " (e :: entries))
  = e :: map (String " ") entries.
Proof.
  revert e. induction entries as [|e' entries IH]; intros e H.
  - simpl. apply split_sep_free. apply H. now left.
  - change (JS.join ", " (e :: e' :: entries))
      with (e ++ String "," (String " " (JS.join ", " (e' :: entries)))).
    rewrite split_app_sep by (apply H; now left).
    rewrite split_keeps_first_char by reflexivity.
    rewrite IH by (intros x Hx; apply H; now right).
    reflexivity.
Qed.

Lemma platforms_of_printed_entries (ps : list CordovaPlatformInfo) :
  forallb well_formed_platform_info ps = true ->
  flat_map (fun entry => platform_of_entry (JS.trim entry))
           (map (String " ") (map platform_entry_of ps))
  = ps.
Proof.
  induction ps as [|p ps IH]; simpl; intros H; [reflexivity|].
  apply andb_true_iff in H. destruct H as [Hp Hps].
  rewrite (proj2 (trim_printed_entry _ Hp)),
    (platform_of_printed_entry _ Hp), (IH Hps).
  reflexivity.
Qed.

(** X11: [getPlatforms] reads back the line the tool prints: for records
    whose id and version are words without commas, the marker followed by
    the entries [<id> <version>] joined by a comma and a blank gives the
    records in the same order. *)
Theorem getPlatforms_reads_printed_line (ps : list CordovaPlatformInfo) :
  forallb well_formed_platform_info ps = true ->
  getPlatforms_then (installed_platforms_line ps) = ps.
Proof.
  intros H. rewrite getPlatforms_then_spec.
  assert (Hcomma : forall x, In x (map platform_entry_of ps) ->
                             has_char "," x = false).
  { intros x Hx. apply in_map_iff in Hx. destruct Hx as [p [<- Hp]].
    rewrite forallb_forall in H. specialize (H p Hp).
    unfold well_formed_platform_info in H. rewrite !andb_true_iff in H.
    destruct H as [[_ Ci] Cv]. apply negb_true_iff in Ci, Cv.
    unfold platform_entry_of, platform_entry.
    rewrite !has_char_app, Ci, Cv. reflexivity. }
  assert (Hnl : forall x, In x (map platform_entry_of ps) ->
                          has_char newline x = false).
  { intros x Hx. apply in_map_iff in Hx. destruct Hx as [p [<- Hp]].
    rewrite forallb_forall in H. specialize (H p Hp).
    unfold well_formed_platform_info, word in H.
    rewrite !andb_true_iff in H. destruct H as [[[[_ Wi] [_ Wv]] _] _].
    unfold platform_entry_of, platform_entry.
    rewrite !has_char_app,
      (no_whitespace_has_char newline _ eq_refl Wi),
      (no_whitespace_has_char newline _ eq_refl Wv).
    reflexivity. }
  rewrite split_sep_free.
  - simpl flat_map. rewrite app_nil_r. unfold platforms_of_line.
    unfold installed_platforms_line.
    replace (prefix "Installed platforms: "
               ("Installed platforms: "
                ++ JS.join ", " (map platform_entry_of ps)))
      with true by (symmetry; apply prefix_app; eauto).
    change (JS.substring_from 21
              ("Installed platforms: "
               ++ JS.join ", " (map platform_entry_of ps)))
      with (JS.join ", " (map platform_entry_of ps)).
    destruct ps as [|p ps]; [reflexivity|].
    cbn [map]. rewrite split_comma_join by exact Hcomma.
    cbn [flat_map]. simpl in H. apply andb_true_iff in H.
    destruct H as [Hp Hps].
    rewrite (proj1 (trim_printed_entry _ Hp)),
      (platform_of_printed_entry _ Hp),
      (platforms_of_printed_entries _ Hps).
    reflexivity.
  - unfold installed_platforms_line. rewrite has_char_app. simpl.
    apply has_char_join; [reflexivity|exact Hnl].
Qed.

Lemma getPlatforms_reads_printed_line_witness :
  getPlatforms_then
    (installed_platforms_line
       [mkPlatformInfo "android" "6.0.0"; mkPlatformInfo "ios" "4.3.0";
        mkPlatformInfo "windows" "4.4.3"])
  = [mkPlatformInfo "android" "6.0.0"; mkPlatformInfo "ios" "4.3.0";
     mkPlatformInfo "windows" "4.4.3"].
Proof.
  apply (getPlatforms_reads_printed_line
           [mkPlatformInfo "android" "6.0.0"; mkPlatformInfo "ios" "4.3.0";
            mkPlatformInfo "windows" "4.4.3"]).
  reflexivity.
Defined.

Lemma queries_parse_the_output_witness :
  getPlugins failing_host (mkCordovaProject "app") = Fulfilled [].
Proof.
  apply (proj1 (proj2 (queries_parse_the_output
                         failing_host (mkCordovaProject "app")
                         ["Error: "; "path exists"] 1%Z None []))).
  reflexivity.
Defined.

(** X14: the three queries reject with the raw error when the tool cannot
    be spawned; no parsing takes place. *)
Theorem queries_reject_with_spawn_error (host : Host)
  (this : CordovaProject) (chunks : list string) (e : spawn_error)
  (later : list child_event) :
  (spawned_child host "cordova info" (Some (_path this))
   = (map Data chunks ++ Error e :: later)%list ->
   getInfo host this = Rejected (ReasonError e))
  /\ (spawned_child host "cordova plugin list" (Some (_path this))
      = (map Data chunks ++ Error e :: later)%list ->
      getPlugins host this = Rejected (ReasonError e))
  /\ (spawned_child host "cordova platform list" (Some (_path this))
      = (map Data chunks ++ Error e :: later)%list ->
      getPlatforms host this = Rejected (ReasonError e)).
Proof.
  repeat split; intros H;
    unfold getInfo, getPlugins, getPlatforms;
    rewrite (wrapStringAction_error _ _ _ _ _ _ H); reflexivity.
Qed.

Lemma queries_reject_with_spawn_error_witness :
  getInfo toolless_host (mkCordovaProject "app")
  = Rejected (ReasonError (mkSpawnError "ENOENT"))
  /\ getPlatforms toolless_host (mkCordovaProject "app")
     = Rejected (ReasonError (mkSpawnError "ENOENT")).
Proof.
  split.
  - apply (proj1 (queries_reject_with_spawn_error
                    toolless_host (mkCordovaProject "app") []
                    (mkSpawnError "ENOENT") [])).
    reflexivity.
  - apply (proj2 (proj2 (queries_reject_with_spawn_error
                           toolless_host (mkCordovaProject "app") []
                           (mkSpawnError "ENOENT") []))).
    reflexivity.
Defined.

(** ** getInfo: the plugin names *)





(** ** Runs without an exit, and runs ended by a signal *)

Lemma events_decompose (events : list child_event) :
  (forallb is_data events = true
   /\ exists chunks, events = map Data chunks)
  \/ (forallb is_data events = false
      /\ exists chunks ev later,
           events = (map Data chunks ++ ev :: later)%list
           /\ is_data ev = false).
Proof.
  induction events as [|ev events IH].
  - left. split; [reflexivity|]. now exists [].
  - destruct ev as [text|e|code signal].
    + destruct IH as [[Hall [chunks ->]]|[Hnot [chunks [ev [later [-> Hev]]]]]].
      * left. split; [exact Hall|]. now exists (text :: chunks).
      * right. split; [exact Hnot|].
        now exists (text :: chunks), ev, later.
    + right. split; [reflexivity|]. now exists [], (Error e), events.
    + right. split; [reflexivity|].
      now exists [], (Exit code signal), events.
Qed.

Lemma run_child_data_only {A : Type}
  (handle : child_state A -> child_event -> child_state A)
  (chunks : list string) :
  (forall st text,
      handle st (Data text)
      = mkChildState (outBuffer st ++ text) (result st) false) ->
  run_child handle (map Data chunks)
  = mkChildState (accumulated chunks) defer false.
Proof.
  intros Hdata. unfold run_child. now rewrite run_data_from.
Qed.

Lemma void_run_settles (chunks : list string) (ev : child_event)
  (later : list child_event) :
  is_data ev = false ->
  state (result (run_child void_handle (map Data chunks ++ ev :: later)%list))
  <> Pending.
Proof.
  intros Hev.
  destruct ev as [text|e|code signal]; [discriminate Hev| |].
  - rewrite (run_child_terminal void_handle (fun _ _ => eq_refl)
               void_handle_settled chunks (Error e) later
               (Rejected (ReasonError e)) eq_refl);
      discriminate.
  - rewrite (run_child_terminal void_handle (fun _ _ => eq_refl)
               void_handle_settled chunks (Exit code signal) later
               (Fulfilled (mkActionResult (accumulated chunks) code)));
      try discriminate.
    destruct code as [[|c|c]|]; reflexivity.
Qed.

(** X15: the promise of [wrapVoidAction] is pending exactly when the child
    has emitted neither an exit nor an error event; nothing else settles it,
    so a tool that keeps running keeps the caller waiting. The same child
    leaves the promise of [wrapStringAction] pending. *)
Theorem execution_pending_without_exit (host : Host) (commandLine : string)
  (workingDirectory : option string) :
  (state (wrapVoidAction host commandLine workingDirectory) = Pending
   <-> forallb is_data (spawned_child host commandLine workingDirectory)
       = true)
  /\ (forallb is_data (spawned_child host commandLine workingDirectory)
      = true ->
      state (wrapStringAction host commandLine workingDirectory) = Pending).
Proof.
  rewrite wrapVoidAction_runs, wrapStringAction_runs.
  destruct (events_decompose
              (spawned_child host commandLine workingDirectory))
    as [[Hall [chunks Hev]]|[Hnot [chunks [ev [later [Hev Hterm]]]]]];
    rewrite Hev in *.
  - rewrite !run_child_data_only by reflexivity. simpl.
    split; [split; auto|auto].
  - split.
    + split.
      * intros H. now apply void_run_settles in H.
      * rewrite Hnot. discriminate.
    + rewrite Hnot. discriminate.
Qed.

Lemma execution_pending_without_exit_witness :
  state (wrapVoidAction hung_host "cordova serve" (Some "app")) = Pending.
Proof.
  apply (proj2 (proj1 (execution_pending_without_exit
                         hung_host "cordova serve" (Some "app")))).
  reflexivity.
Defined.

(** X16: a child that a signal ends has no exit code. [wrapVoidAction]
    fulfils with the buffered output and [null] as the status code; the exit
    handler of [wrapStringAction] reads a member of that [null], throws, and
    leaves its promise pending. *)
Theorem execution_after_signal (host : Host) (commandLine : string)
  (workingDirectory : option string) (chunks : list string)
  (signal : option string) :
  spawned_child host commandLine workingDirectory
  = (map Data chunks ++ [Exit None signal])%list ->
  state (wrapVoidAction host commandLine workingDirectory)
  = Fulfilled (mkActionResult (accumulated chunks) None)
  /\ state (wrapStringAction host commandLine workingDirectory) = Pending
  /\ calls (wrapStringAction host commandLine workingDirectory) = [].
Proof.
  intros H. rewrite wrapVoidAction_runs, wrapStringAction_runs, H.
  split.
  - apply run_child_terminal.
    + reflexivity.
    + apply void_handle_settled.
    + reflexivity.
    + discriminate.
  - unfold run_child. rewrite fold_left_app.
    rewrite (run_data_from string_handle (fun _ _ => eq_refl)).
    split; reflexivity.
Qed.

Lemma execution_after_signal_witness :
  state (wrapVoidAction killed_host "cordova build" (Some "app"))
  = Fulfilled (mkActionResult "partial" None)
  /\ state (wrapStringAction killed_host "cordova build" (Some "app"))
     = Pending
  /\ calls (wrapStringAction killed_host "cordova build" (Some "app")) = [].
Proof.
  apply (execution_after_signal killed_host "cordova build" (Some "app")
           ["partial"] (Some "SIGTERM")).
  reflexivity.
Defined.

(** ** open and create, for every run *)

(** X17: [open] always settles. It fulfils exactly when [fs.stat] reports no
    error for the descriptor file, and the handle it gives is bound to the
    directory it was called with. *)
Theorem open_settles (host : Host) (directoryName : string) :
  state (open host directoryName) <> Pending
  /\ (forall proj,
        state (open host directoryName) = Fulfilled proj
        <-> stat_err host (path_join host directoryName "config.xml") = false
            /\ proj = mkCordovaProject directoryName).
Proof.
  rewrite open_state.
  destruct (stat_err host (path_join host directoryName "config.xml")).
  - split; [discriminate|]. intros proj. split.
    + discriminate.
    + intros [H _]. discriminate H.
  - split; [discriminate|]. intros proj. split.
    + intros H. injection H as <-. now split.
    + intros [_ ->]. reflexivity.
Qed.

Lemma open_settles_witness :
  state (open project_host "app") = Fulfilled (mkCordovaProject "app").
Proof.
  apply (proj2 (open_settles project_host "app")).
  split; reflexivity.
Defined.

(** X18: whatever the child emits, [create] fulfils only after an exit with
    code 0 that no exit or error event precedes, only when the descriptor
    file is found under the joined path, and only with the handle bound to
    that path. *)
Theorem create_fulfils_only_with_descriptor (host : Host) (name : string)
  (id title : option string) (proj : CordovaProject) :
  state (create host name id title) = Fulfilled proj ->
  proj = mkCordovaProject (path_join host "." name)
  /\ stat_err host (path_join host (path_join host "." name) "config.xml")
     = false
  /\ exists chunks signal later,
       create_child host name id title
       = (map Data chunks ++ Exit (Some 0%Z) signal :: later)%list.
Proof.
  intros H.
  assert (Hok : create_promise_ok host name
                  (state (create host name id title))).
  { rewrite create_runs. apply create_run_ok. exact I. }
  rewrite H in Hok. destruct Hok as [Hproj Hstat].
  split; [exact Hproj|]. split; [exact Hstat|].
  destruct (events_decompose (create_child host name id title))
    as [[_ [chunks Hev]]|[_ [chunks [ev [later [Hev Hterm]]]]]].
  - rewrite create_runs, Hev in H.
    rewrite <- (app_nil_r (map Data chunks)) in H.
    rewrite create_run_after_data in H. discriminate H.
  - destruct ev as [text|e|code signal]; [discriminate Hterm| |].
    + rewrite (create_spawn_error _ _ _ _ _ _ _ Hev) in H. discriminate H.
    + destruct code as [[|c|c]|].
      * now exists chunks, signal, later.
      * rewrite (create_exit_other host name id title chunks
                   (Some (Z.pos c)) signal later) in H;
          [discriminate H|discriminate|exact Hev].
      * rewrite (create_exit_other host name id title chunks
                   (Some (Z.neg c)) signal later) in H;
          [discriminate H|discriminate|exact Hev].
      * rewrite (create_exit_other host name id title chunks
                   None signal later) in H;
          [discriminate H|discriminate|exact Hev].
Qed.

Lemma create_fulfils_only_with_descriptor_witness :
  mkCordovaProject "app" = mkCordovaProject (path_join project_host "." "app")
  /\ stat_err project_host
       (path_join project_host (path_join project_host "." "app")
                  "config.xml")
     = false
  /\ exists chunks signal later,
       create_child project_host "app" None None
       = (map Data chunks ++ Exit (Some 0%Z) signal :: later)%list.
Proof.
  apply (create_fulfils_only_with_descriptor project_host "app" None None
           (mkCordovaProject "app")).
  reflexivity.
Defined.


(** X20: the promise of [create] is pending exactly when the child has
    emitted neither an exit nor an error event. *)
Theorem create_pending_without_exit (host : Host) (name : string)
  (id title : option string) :
  state (create host name id title) = Pending
  <-> forallb is_data (create_child host name id title) = true.
Proof.
  destruct (events_decompose (create_child host name id title))
    as [[Hall [chunks Hev]]|[Hnot [chunks [ev [later [Hev Hterm]]]]]].
  - rewrite create_runs, Hev in *.
    rewrite <- (app_nil_r (map Data chunks)) at 1.
    rewrite create_run_after_data. simpl. tauto.
  - rewrite Hnot. split; [|discriminate]. intros H. exfalso.
    revert H. rewrite create_runs, Hev, create_run_after_data.
    rewrite create_run_cons. apply create_run_not_pending.
    destruct ev as [text|e|[[|c|c]|] signal];
      try discriminate Hterm;
      try (left; discriminate).
    right. discriminate.
Qed.

Lemma create_pending_without_exit_witness :
  state (create hung_host "app" None None) = Pending.
Proof.
  apply (proj2 (create_pending_without_exit hung_host "app" None None)).
  reflexivity.
Defined.

(** ** create: its outcomes *)

Lemma create_settles_after_event (host : Host) (name : string)
  (id title : option string) :
  forallb is_data (create_child host name id title) = false ->
  state (create host name id title) <> Pending.
Proof.
  intros Hnot.
  destruct (events_decompose (create_child host name id title))
    as [[Hall _]|[_ [chunks [ev [later [Hev Hterm]]]]]].
  - rewrite Hall in Hnot. discriminate Hnot.
  - rewrite create_runs, Hev, create_run_after_data, create_run_cons.
    apply create_run_not_pending.
    destruct ev as [text|e|[[|c|c]|] signal];
      try discriminate Hterm;
      try (left; discriminate).
    right. discriminate.
Qed.

Lemma create_pending_on_data (host : Host) (name : string)
  (id title : option string) :
  forallb is_data (create_child host name id title) = true ->
  state (create host name id title) = Pending.
Proof.
  intros Hall.
  destruct (events_decompose (create_child host name id title))
    as [[_ [chunks Hev]]|[Hnot _]].
  - rewrite create_runs, Hev.
    rewrite <- (app_nil_r (map Data chunks)).
    now rewrite create_run_after_data.
  - rewrite Hall in Hnot. discriminate Hnot.
Qed.

Lemma create_outcome_of_ok (host : Host) (name : string)
  (p : promise CordovaProject reason) :
  create_promise_ok host name p -> p <> Pending ->
  exists outcome, create_outcome_of p = Some outcome.
Proof.
  intros Hok Hp. destruct p as [|proj|[message|e|code captured]].
  - now contradiction Hp.
  - now exists (Opened proj).
  - simpl in Hok. subst message. now exists NotACordovaProject.
  - now exists (SpawnFailed e).
  - now exists (CreationFailed code captured).
Qed.

(** C7, as the code has it: [create] spawns the tool with the arguments
    create, name and then id and title when they are truthy. For a child
    whose first event other than data is an exit with code 0, [create] calls
    [open] on the joined path and takes its outcome, the handle when the
    descriptor file is found and the "not a Cordova application" rejection
    otherwise, provided no error event arrives before [fs.stat] has answered;
    an error event that arrives before rejects with that error. A first exit
    with another code rejects with the code and the output captured so far, a
    first error event with the raw error. Whenever the child emits an exit or
    an error event the promise shows exactly one of these four outcomes;
    while it emits neither, the promise is pending. *)
Theorem create_outcomes (host : Host) (name : string)
  (id title : option string) (chunks : list string)
  (later : list child_event) :
  create_args name id title
  = ("create" :: name :: supplied id ++ supplied title)%list
  /\ (forall signal : option string,
        create_child host name id title
        = (map Data chunks ++ Exit (Some 0%Z) signal :: later)%list ->
        forallb leaves_pending (firstn (stat_delay host) later) = true ->
        state (create host name id title)
        = if stat_err host
               (path_join host (path_join host "." name) "config.xml")
          then Rejected
                 (ReasonText "The selected path is not a Cordova application.")
          else Fulfilled (mkCordovaProject (path_join host "." name)))
  /\ (forall (signal : option string) (quiet : list child_event)
             (e : spawn_error) (rest : list child_event),
        create_child host name id title
        = (map Data chunks ++ Exit (Some 0%Z) signal :: quiet
             ++ Error e :: rest)%list ->
        forallb leaves_pending quiet = true ->
        List.length quiet < stat_delay host ->
        state (create host name id title) = Rejected (ReasonError e))
  /\ (forall (code : option Z) (signal : option string),
        code <> Some 0%Z ->
        create_child host name id title
        = (map Data chunks ++ Exit code signal :: later)%list ->
        state (create host name id title)
        = Rejected (ReasonExit code (accumulated chunks)))
  /\ (forall e : spawn_error,
        create_child host name id title
        = (map Data chunks ++ Error e :: later)%list ->
        state (create host name id title) = Rejected (ReasonError e))
  /\ (forallb is_data (create_child host name id title) = false ->
      exists outcome,
        create_outcome_of (state (create host name id title)) = Some outcome)
  /\ (forallb is_data (create_child host name id title) = true ->
      state (create host name id title) = Pending).
Proof.
  split; [apply create_args_positional|].
  split; [|split; [|split; [|split; [|split]]]].
  - intros signal H Hquiet.
    rewrite (create_exit_zero _ _ _ _ _ _ _ H Hquiet). apply open_state.
  - intros signal quiet e rest H Hquiet Hlen.
    eapply create_error_before_answer; eassumption.
  - intros code signal Hcode H. eapply create_exit_other; eassumption.
  - intros e H. eapply create_spawn_error; eassumption.
  - intros Hnot. apply create_outcome_of_ok with (host := host) (name := name).
    + rewrite create_runs. apply create_run_ok. exact I.
    + now apply create_settles_after_event.
  - apply create_pending_on_data.
Qed.

Lemma create_outcomes_witness :
  state (create project_host "app" (Some "org.example.app") (Some "App"))
  = Fulfilled (mkCordovaProject "app")
  /\ state (create bare_host "app" None None)
     = Rejected (ReasonText "The selected path is not a Cordova application.")
  /\ state (create racing_host "app" None None)
     = Rejected (ReasonError (mkSpawnError "EPIPE"))
  /\ state (create failing_host "app" None (Some "App"))
     = Rejected (ReasonExit (Some 1%Z) "Error: path exists")
  /\ state (create toolless_host "app" None None)
     = Rejected (ReasonError (mkSpawnError "ENOENT"))
  /\ (exists outcome,
        create_outcome_of (state (create racing_host "app" None None))
        = Some outcome)
  /\ state (create hung_host "app" None None) = Pending.
Proof.
  split; [|split; [|split; [|split; [|split; [|split]]]]].
  - apply (proj1 (proj2 (create_outcomes
                           project_host "app" (Some "org.example.app")
                           (Some "App") ["Creating "; "project"] []))
                 None);
      reflexivity.
  - apply (proj1 (proj2 (create_outcomes
                           bare_host "app" None None
                           ["Creating "; "project"] []))
                 None);
      reflexivity.
  - apply (proj1 (proj2 (proj2 (create_outcomes
                                  racing_host "app" None None
                                  ["Creating project"] [])))
                 None [Data "."] (mkSpawnError "EPIPE") []).
    + reflexivity.
    + reflexivity.
    + simpl. lia.
  - apply (proj1 (proj2 (proj2 (proj2 (create_outcomes
                                         failing_host "app" None (Some "App")
                                         ["Error: "; "path exists"] []))))
                 (Some 1%Z) None).
    + discriminate.
    + reflexivity.
  - apply (proj1 (proj2 (proj2 (proj2 (proj2 (create_outcomes
                                                toolless_host "app" None None
                                                [] [])))))
                 (mkSpawnError "ENOENT")).
    reflexivity.
  - apply (proj1 (proj2 (proj2 (proj2 (proj2 (proj2 (create_outcomes
                                                       racing_host "app" None
                                                       None [] []))))))).
    reflexivity.
  - apply (proj2 (proj2 (proj2 (proj2 (proj2 (proj2 (create_outcomes
                                                       hung_host "app" None
                                                       None [] []))))))).
    reflexivity.
Defined.

(** The three outcomes of the specification leave out the child that exits
    with code 0 in a directory without a descriptor file: there [create]
    rejects with the error of [open]. *)
Lemma create_three_outcomes_fails :
  ~ create_three_outcomes bare_host "app" None None.
Proof.
  intros H.
  specialize (H ["Creating "; "project"] (Exit (Some 0%Z) None) []
                eq_refl).
  vm_compute in H. discriminate H.
Qed.

(** ** Lines, entries and trimming, against the text itself *)

(** Joining the pieces of a split with the separator gives the text back:
    the pieces are the stretches of the text between separators. *)
Lemma join_split (sep : ascii) (s : string) :
  JS.join (String sep "") (JS.split sep s) = s.
Proof.
  induction s as [|c s IH]; [reflexivity|].
  simpl JS.split. destruct (Ascii.eqb c sep) eqn:Hc.
  - apply Ascii.eqb_eq in Hc. subst c.
    destruct (JS.split sep s) as [|y ys] eqn:Hs.
    + now apply split_nonempty in Hs.
    + change (JS.join (String sep "") ("" :: y :: ys))
        with (String sep (JS.join (String sep "") (y :: ys))).
      now rewrite IH.
  - destruct (JS.split sep s) as [|y ys] eqn:Hs.
    + now apply split_nonempty in Hs.
    + rewrite <- IH. destruct ys; reflexivity.
Qed.

Lemma split_lines (text : string) :
  JS.join (String newline "") (JS.split newline text) = text
  /\ Forall no_newline (JS.split newline text).
Proof.
  split; [apply join_split|].
  apply Forall_forall. intros line Hin.
  now apply split_pieces_no_sep with (s := text).
Qed.

Lemma split_joined_lines (l : string) (ls : list string) :
  Forall no_newline (l :: ls) ->
  JS.split newline (JS.join (String newline "") (l :: ls)) = l :: ls.
Proof.
  intros H. apply split_join; [discriminate|].
  now apply Forall_forall.
Qed.

Lemma remove_char_app (c : ascii) (a b : string) :
  remove_char c (a ++ b) = remove_char c a ++ remove_char c b.
Proof.
  induction a as [|x a IH]; simpl; [reflexivity|].
  rewrite IH. now destruct (Ascii.eqb x c).
Qed.

Lemma remove_char_absent (c : ascii) (a : string) :
  has_char c a = false -> remove_char c a = a.
Proof.
  induction a as [|x a IH]; simpl; [reflexivity|].
  intros H. apply orb_false_iff in H. destruct H as [Hx Ha].
  now rewrite Hx, (IH Ha).
Qed.

(** Putting lines together with nothing between them is removing the
    newlines from the lines joined by newlines. *)
Lemma concat_all_removes_newlines (lines : list string) :
  Forall no_newline lines ->
  concat_all lines = remove_char newline (JS.join (String newline "") lines).
Proof.
  induction lines as [|l lines IH]; intros H; [reflexivity|].
  inversion H as [|x xs Hl Hlines]; subst.
  destruct lines as [|l' lines].
  - simpl. rewrite string_app_empty_r. symmetry.
    now apply remove_char_absent.
  - change (JS.join (String newline "") (l :: l' :: lines))
      with (l ++ String newline (JS.join (String newline "") (l' :: lines))).
    rewrite remove_char_app. simpl remove_char. rewrite ?Ascii.eqb_refl.
    rewrite (remove_char_absent _ _ Hl). simpl concat_all.
    f_equal. now apply IH.
Qed.

Lemma through_first_prefix (P : string -> bool) (lines : list string) :
  exists rest, lines = (through_first P lines ++ rest)%list.
Proof.
  induction lines as [|l lines [rest IH]]; [now exists []|].
  simpl. destruct (P l).
  - now exists lines.
  - exists rest. simpl. now rewrite <- IH.
Qed.

Lemma through_first_no_newline (P : string -> bool) (lines : list string) :
  Forall no_newline lines -> Forall no_newline (through_first P lines).
Proof.
  rewrite !Forall_forall. intros H line Hin. apply H.
  now apply through_first_incl in Hin.
Qed.

(** C10: the lines of the output are its stretches between newlines, the
    consumed lines are the first of them, up to and including the first with
    the closing tag, and the config is these lines put together with nothing
    between them, which is the consumed lines joined by newlines with the
    newlines removed. The config holds no newline character and every
    consumed line occurs in it as it is. *)
Theorem getInfo_config_joined_without_newlines (text : string) :
  let lines := JS.split newline text in
  let consumed := through_first has_widget_close lines in
  (JS.join (String newline "") lines = text /\ Forall no_newline lines)
  /\ (exists rest, lines = (consumed ++ rest)%list)
  /\ config (getInfo_then text) = concat_all consumed
  /\ config (getInfo_then text)
     = remove_char newline (JS.join (String newline "") consumed)
  /\ has_char newline (config (getInfo_then text)) = false
  /\ Forall (fun line => occurs_in line (config (getInfo_then text)))
            consumed
  /\ (forall (l : string) (ls : list string),
        Forall no_newline (l :: ls) ->
        text = JS.join (String newline "") (l :: ls) ->
        config (getInfo_then text)
        = concat_all (through_first has_widget_close (l :: ls))).
Proof.
  cbv zeta. rewrite getInfo_then_spec. simpl config.
  destruct (split_lines text) as [Hjoin Hlines].
  split; [now split|]. split; [apply through_first_prefix|].
  split; [reflexivity|]. split; [|split; [|split]].
  - apply concat_all_removes_newlines.
    now apply through_first_no_newline.
  - apply concat_all_no_char. intros piece Hin.
    apply split_pieces_no_sep with (s := text).
    eapply through_first_incl. exact Hin.
  - apply Forall_forall. intros line Hin.
    now apply occurs_in_concat_all.
  - intros l ls Hl ->. now rewrite split_joined_lines.
Qed.

Lemma getInfo_config_joined_without_newlines_witness :
  config (getInfo_then
            (JS.join (String newline "")
               ["<widget id='a'>"; "  <name>App</name>"; "</widget>";
                "Plugins:"; "plugin-a"; ""]))
  = concat_all
      (through_first has_widget_close
         ["<widget id='a'>"; "  <name>App</name>"; "</widget>";
          "Plugins:"; "plugin-a"; ""])
  /\ concat_all
       (through_first has_widget_close
          ["<widget id='a'>"; "  <name>App</name>"; "</widget>";
           "Plugins:"; "plugin-a"; ""])
     = "<widget id='a'>  <name>App</name></widget>".
Proof.
  split; [|reflexivity].
  apply (proj2 (proj2 (proj2 (proj2 (proj2 (proj2
           (getInfo_config_joined_without_newlines
              (JS.join (String newline "")
                 ["<widget id='a'>"; "  <name>App</name>"; "</widget>";
                  "Plugins:"; "plugin-a"; ""]))))))));
    [|reflexivity].
  repeat constructor.
Defined.

(** ** The leftmost match *)

Lemma line_terminator_not_blank (c : ascii) :
  JS.is_line_terminator c = true -> Ascii.eqb " " c = false.
Proof.
  intros H. apply Ascii.eqb_neq. intros <-. discriminate H.
Qed.

(** A lazy group that must be followed by a blank finds none in text
    without blanks that a line terminator ends. *)
Lemma lazy_dots_before_terminator (r : list piece)
  (f : string -> list string) (pre : string) (c : ascii)
  (rest taken : string) :
  has_char " " pre = false ->
  JS.is_line_terminator c = true ->
  lazy_dots (fun cap s => match_pieces (Chr " " :: r) s (f cap))
            (pre ++ String c rest) taken
  = None.
Proof.
  intros Hpre Hc. revert taken.
  induction pre as [|x pre IH]; intros taken.
  - simpl. now rewrite Hc.
  - simpl in Hpre. apply orb_false_iff in Hpre. destruct Hpre as [Hx Hpre].
    simpl append. cbn [lazy_dots].
    destruct (JS.is_line_terminator x); [reflexivity|].
    rewrite (IH Hpre).
    destruct pre as [|y pre].
    + simpl append. cbn [match_pieces].
      now rewrite (line_terminator_not_blank _ Hc).
    + simpl append. cbn [match_pieces].
      simpl in Hpre. apply orb_false_iff in Hpre. destruct Hpre as [Hy _].
      rewrite Ascii.eqb_sym in Hy. now rewrite Hy.
Qed.

Lemma match_group_before_terminator (r : list piece) (pre : string)
  (c : ascii) (rest : string) (caps : list string) :
  has_char " " pre = false ->
  JS.is_line_terminator c = true ->
  match_pieces (LazyGroup :: Chr " " :: r) (pre ++ String c rest) caps = None.
Proof.
  intros Hpre Hc.
  exact (lazy_dots_before_terminator r (fun cap => (caps ++ [cap])%list)
           pre c rest "" Hpre Hc).
Qed.

Lemma regex_match_cons (r : list piece) (x : ascii) (s : string) :
  regex_match r (String x s)
  = match match_pieces r (String x s) [] with
    | Some caps => Some caps
    | None => regex_match r s
    end.
Proof. reflexivity. Qed.

(** The search goes on to later start positions: text without blanks that
    a line terminator ends is passed over. *)
Lemma regex_match_after_terminator (r : list piece) (pre : string)
  (c : ascii) (rest : string) :
  has_char " " pre = false ->
  JS.is_line_terminator c = true ->
  regex_match (LazyGroup :: Chr " " :: r) (pre ++ String c rest)
  = regex_match (LazyGroup :: Chr " " :: r) rest.
Proof.
  intros Hpre Hc. induction pre as [|x pre IH].
  - simpl append. rewrite regex_match_cons.
    change (String c rest) with ("" ++ String c rest) at 1.
    now rewrite (match_group_before_terminator r "" c rest [] eq_refl Hc).
  - simpl append. rewrite regex_match_cons.
    change (String x (pre ++ String c rest))
      with (String x pre ++ String c rest) at 1.
    rewrite (match_group_before_terminator r _ c rest [] Hpre Hc).
    simpl in Hpre. apply orb_false_iff in Hpre. now apply IH.
Qed.

Lemma plugin_of_line_after_terminator (pre : string) (c : ascii)
  (rest : string) :
  has_char " " pre = false ->
  JS.is_line_terminator c = true ->
  plugin_of_line (pre ++ String c rest) = plugin_of_line rest.
Proof.
  intros Hpre Hc. unfold plugin_of_line, plugin_pattern.
  now rewrite (regex_match_after_terminator _ _ _ _ Hpre Hc).
Qed.

Lemma platform_of_entry_after_terminator (pre : string) (c : ascii)
  (rest : string) :
  has_char " " pre = false ->
  JS.is_line_terminator c = true ->
  platform_of_entry (pre ++ String c rest) = platform_of_entry rest.
Proof.
  intros Hpre Hc. unfold platform_of_entry, platform_pattern.
  now rewrite (regex_match_after_terminator _ _ _ _ Hpre Hc).
Qed.

Lemma plugin_of_line_without_quote (line : string) :
  ends_with quote line = false -> plugin_of_line line = [].
Proof.
  intros H. apply matches_plugin_pattern_ends_with_quote in H.
  unfold matches_plugin_pattern in H. unfold plugin_of_line.
  now destruct (regex_match plugin_pattern line).
Qed.

(** C3: the lines of the output are its stretches between newlines, and
    [getPlugins] gives the records of the matching lines in the order of the
    lines, one per matching line and none for any other line: for lines
    joined by newlines the result is the records of the first line, then
    those of the second, and so on. A well formed line
    [<id> <version> "<name>"] gives the record of its three parts, as the
    camera line of the specification does; the pattern is looked for from
    the left, so text without blanks that a line terminator ends is passed
    over; a line that does not end with a double quote gives nothing, and
    output without a matching line gives no record. *)
Theorem getPlugins_one_record_per_matching_line (text : string) :
  let lines := JS.split newline text in
  (JS.join (String newline "") lines = text /\ Forall no_newline lines)
  /\ getPlugins_then text = flat_map plugin_of_line lines
  /\ (forall line,
        List.length (plugin_of_line line)
        = if matches_plugin_pattern line then 1 else 0)
  /\ List.length (getPlugins_then text)
     = List.length (filter matches_plugin_pattern lines)
  /\ (forall (l : string) (ls : list string),
        Forall no_newline (l :: ls) ->
        text = JS.join (String newline "") (l :: ls) ->
        getPlugins_then text
        = (plugin_of_line l ++ flat_map plugin_of_line ls)%list)
  /\ (forall id version name,
        well_formed_plugin id version name = true ->
        plugin_of_line (plugin_line id version name)
        = [mkPluginInfo id version name])
  /\ (forall (pre : string) (c : ascii) (rest : string),
        has_char " " pre = false ->
        JS.is_line_terminator c = true ->
        plugin_of_line (pre ++ String c rest) = plugin_of_line rest)
  /\ (forall line,
        ends_with quote line = false -> plugin_of_line line = [])
  /\ (forall id version name,
        well_formed_plugin id version name = true ->
        text = plugin_line id version name ->
        getPlugins_then text = [mkPluginInfo id version name])
  /\ ((forall line, In line lines -> matches_plugin_pattern line = false) ->
      getPlugins_then text = []).
Proof.
  cbv zeta. rewrite getPlugins_then_spec.
  split; [apply split_lines|].
  split; [reflexivity|]. split; [apply plugin_of_line_length|].
  split; [apply flat_map_plugin_length|].
  split; [|split; [|split; [|split; [|split]]]].
  - intros l ls Hl ->. now rewrite split_joined_lines.
  - apply plugin_of_well_formed_line.
  - apply plugin_of_line_after_terminator.
  - apply plugin_of_line_without_quote.
  - intros id version name Hwf ->.
    assert (Hnl : has_char newline (plugin_line id version name) = false).
    { apply (plugin_line_no_newline (mkPluginInfo id version name)).
      exact Hwf. }
    rewrite (split_sep_free _ _ Hnl). simpl. rewrite app_nil_r.
    now apply plugin_of_well_formed_line.
  - apply flat_map_plugin_none.
Qed.

Lemma getPlugins_one_record_per_matching_line_witness :
  getPlugins_then
    (JS.join (String newline "")
       [plugin_line "cordova-plugin-camera" "2.1.0" "Camera";
        "No plugins added.";
        String carriage_return
               (plugin_line "cordova-plugin-device" "1.1.2" "Device");
        plugin_line "cordova-plugin-whitelist" "1.2.1" "Whitelist";
        ""])
  = [mkPluginInfo "cordova-plugin-camera" "2.1.0" "Camera";
     mkPluginInfo "cordova-plugin-device" "1.1.2" "Device";
     mkPluginInfo "cordova-plugin-whitelist" "1.2.1" "Whitelist"]
  /\ plugin_of_line (plugin_line "cordova-plugin-camera" "2.1.0" "Camera")
     = [mkPluginInfo "cordova-plugin-camera" "2.1.0" "Camera"]
  /\ plugin_of_line
       (String carriage_return
               (plugin_line "cordova-plugin-device" "1.1.2" "Device"))
     = plugin_of_line (plugin_line "cordova-plugin-device" "1.1.2" "Device")
  /\ plugin_of_line "No plugins added." = []
  /\ getPlugins_then ("No plugins added. Use `cordova plugin add`."
                      ++ String newline "")
     = [].
Proof.
  split; [|split; [|split; [|split]]].
  - etransitivity.
    + apply (proj1 (proj2 (proj2 (proj2 (proj2
               (getPlugins_one_record_per_matching_line
                  (JS.join (String newline "")
                     [plugin_line "cordova-plugin-camera" "2.1.0" "Camera";
                      "No plugins added.";
                      String carriage_return
                        (plugin_line "cordova-plugin-device" "1.1.2"
                                     "Device");
                      plugin_line "cordova-plugin-whitelist" "1.2.1"
                                  "Whitelist";
                      ""]))))))
               (plugin_line "cordova-plugin-camera" "2.1.0" "Camera")
               ["No plugins added.";
                String carriage_return
                  (plugin_line "cordova-plugin-device" "1.1.2" "Device");
                plugin_line "cordova-plugin-whitelist" "1.2.1" "Whitelist";
                ""]);
        [|reflexivity].
      repeat constructor.
    + vm_compute. reflexivity.
  - apply (proj1 (proj2 (proj2 (proj2 (proj2 (proj2
             (getPlugins_one_record_per_matching_line ""))))))
             "cordova-plugin-camera" "2.1.0" "Camera").
    reflexivity.
  - apply (proj1 (proj2 (proj2 (proj2 (proj2 (proj2 (proj2
             (getPlugins_one_record_per_matching_line "")))))))
             "" carriage_return
             (plugin_line "cordova-plugin-device" "1.1.2" "Device"));
      reflexivity.
  - apply (proj1 (proj2 (proj2 (proj2 (proj2 (proj2 (proj2 (proj2
             (getPlugins_one_record_per_matching_line ""))))))))
             "No plugins added.").
    reflexivity.
  - apply (proj2 (proj2 (proj2 (proj2 (proj2 (proj2 (proj2 (proj2 (proj2
             (getPlugins_one_record_per_matching_line
                ("No plugins added. Use `cordova plugin add`."
                 ++ String newline ""))))))))))).
    intros line Hin. simpl in Hin.
    destruct Hin as [<-|[<-|[]]]; reflexivity.
Defined.

(** ** Trimming *)

Lemma trim_start_whitespace (pad s : string) :
  all_whitespace pad = true -> JS.trim_start (pad ++ s) = JS.trim_start s.
Proof.
  induction pad as [|c pad IH]; simpl; [reflexivity|].
  rewrite andb_true_iff. intros [Hc Hpad]. now rewrite Hc, IH.
Qed.

Lemma trim_start_nonblank (s : string) :
  starts_nonblank s = true -> JS.trim_start s = s.
Proof.
  destruct s as [|c s]; simpl; [discriminate|].
  rewrite negb_true_iff. now intros ->.
Qed.

Lemma trim_end_whitespace (pad : string) :
  all_whitespace pad = true -> JS.trim_end pad = "".
Proof.
  induction pad as [|c pad IH]; simpl; [reflexivity|].
  rewrite andb_true_iff. intros [Hc Hpad]. now rewrite (IH Hpad), Hc.
Qed.

Lemma trim_end_before_whitespace (s pad : string) :
  all_whitespace pad = true -> JS.trim_end (s ++ pad) = JS.trim_end s.
Proof.
  intros Hpad. induction s as [|c s IH].
  - simpl. now apply trim_end_whitespace.
  - simpl. now rewrite IH.
Qed.

Lemma trim_end_nonblank (s : string) :
  ends_nonblank s = true -> JS.trim_end s = s.
Proof.
  induction s as [|c s IH]; [discriminate|].
  destruct s as [|d s].
  - simpl. rewrite negb_true_iff. now intros ->.
  - intros H. change (ends_nonblank (String c (String d s)))
      with (ends_nonblank (String d s)) in H.
    change (JS.trim_end (String c (String d s)))
      with (match JS.trim_end (String d s) with
            | EmptyString =>
                if JS.is_whitespace c then EmptyString else String c ""
            | t => String c t
            end).
    now rewrite (IH H).
Qed.

(** What [trim] does: white space on both sides of a text that begins and
    ends with other characters is removed and the text is left as it is,
    blanks inside included; of white space alone nothing is left. *)
Lemma trim_removes_padding (pad1 core pad2 : string) :
  all_whitespace pad1 = true -> all_whitespace pad2 = true ->
  starts_nonblank core = true -> ends_nonblank core = true ->
  JS.trim (pad1 ++ core ++ pad2) = core.
Proof.
  intros H1 H2 Hs He. unfold JS.trim.
  rewrite (trim_start_whitespace _ _ H1).
  rewrite trim_start_nonblank by (destruct core; [discriminate|exact Hs]).
  rewrite (trim_end_before_whitespace _ _ H2).
  now apply trim_end_nonblank.
Qed.

Lemma trim_whitespace (pad : string) :
  all_whitespace pad = true -> JS.trim pad = "".
Proof.
  intros H. unfold JS.trim.
  rewrite <- (string_app_empty_r pad), (trim_start_whitespace _ _ H).
  reflexivity.
Qed.

Lemma split_joined_entries (e : string) (es : list string) :
  Forall (fun x => has_char "," x = false) (e :: es) ->
  JS.split "," (JS.join "," (e :: es)) = e :: es.
Proof.
  intros H. apply split_join; [discriminate|].
  now apply Forall_forall.
Qed.

Lemma platforms_of_marker_line (rest : string) :
  platforms_of_line ("Installed platforms: " ++ rest)
  = flat_map (fun entry => platform_of_entry (JS.trim entry))
             (JS.split "," rest).
Proof.
  unfold platforms_of_line.
  replace (prefix "Installed platforms: " ("Installed platforms: " ++ rest))
    with true by (symmetry; apply prefix_app; eauto).
  reflexivity.
Qed.

(** C4: the lines of the output are its stretches between newlines;
    [getPlatforms] takes those that begin with the marker, cuts what follows
    the marker at the commas, removes the white space around every entry and
    parses the entry as id and version, looking for the pattern from the
    left; the records come in the order of the lines and of the entries. The
    line of the specification gives android and ios in that order. *)
Theorem getPlatforms_parses_installed_lines (output : string) :
  let lines := JS.split newline output in
  (JS.join (String newline "") lines = output /\ Forall no_newline lines)
  /\ getPlatforms_then output = flat_map platforms_of_line lines
  /\ (forall (l : string) (ls : list string),
        Forall no_newline (l :: ls) ->
        output = JS.join (String newline "") (l :: ls) ->
        getPlatforms_then output
        = (platforms_of_line l ++ flat_map platforms_of_line ls)%list)
  /\ (forall line,
        platforms_of_line line
        = if prefix "Installed platforms: " line
          then flat_map (fun entry => platform_of_entry (JS.trim entry))
                        (JS.split "," (JS.substring_from 21 line))
          else [])
  /\ (forall (e : string) (es : list string),
        Forall (fun x => has_char "," x = false) (e :: es) ->
        platforms_of_line ("Installed platforms: " ++ JS.join "," (e :: es))
        = (platform_of_entry (JS.trim e)
           ++ flat_map (fun entry => platform_of_entry (JS.trim entry)) es)
          %list)
  /\ (forall pad1 core pad2,
        all_whitespace pad1 = true -> all_whitespace pad2 = true ->
        starts_nonblank core = true -> ends_nonblank core = true ->
        JS.trim (pad1 ++ core ++ pad2) = core)
  /\ (forall pad, all_whitespace pad = true -> JS.trim pad = "")
  /\ (forall id version,
        well_formed_platform id version = true ->
        platform_of_entry (platform_entry id version)
        = [mkPlatformInfo id version])
  /\ (forall (pre : string) (c : ascii) (rest : string),
        has_char " " pre = false ->
        JS.is_line_terminator c = true ->
        platform_of_entry (pre ++ String c rest) = platform_of_entry rest)
  /\ (forall entry, has_char " " entry = false -> platform_of_entry entry = [])
  /\ getPlatforms_then "Installed platforms: android 6.0.0, ios 4.3.0"
     = [mkPlatformInfo "android" "6.0.0"; mkPlatformInfo "ios" "4.3.0"].
Proof.
  cbv zeta. rewrite getPlatforms_then_spec.
  split; [apply split_lines|]. split; [reflexivity|].
  split; [|split; [reflexivity|split; [|split; [|split; [|split;
    [|split; [|split]]]]]]].
  - intros l ls Hl ->. now rewrite split_joined_lines.
  - intros e es H. rewrite platforms_of_marker_line.
    now rewrite (split_joined_entries _ _ H).
  - apply trim_removes_padding.
  - apply trim_whitespace.
  - apply platform_of_well_formed_entry.
  - apply platform_of_entry_after_terminator.
  - intros entry H.
    destruct (platform_of_entry entry) as [|p l] eqn:Hp; [reflexivity|].
    assert (Hin : In p (platform_of_entry entry))
      by (rewrite Hp; now left).
    destruct (platform_of_entry_shape _ _ Hin) as [before [Heq _]].
    rewrite Heq in H. unfold platform_entry in H.
    change (platform_id p ++ " " ++ platform_version p)
      with (platform_id p ++ String " " (platform_version p)) in H.
    rewrite <- string_app_assoc, has_char_middle in H. discriminate H.
  - vm_compute. reflexivity.
Qed.

Lemma getPlatforms_parses_installed_lines_witness :
  getPlatforms_then
    (JS.join (String newline "")
       ["Available platforms: amazon-fireos 3.6.3, browser 4.1.0";
        "Installed platforms: "
          ++ JS.join "," ["  android 6.0.0 "; (" ios 4.3.0" ++ String carriage_return "")%string];
        ""])
  = [mkPlatformInfo "android" "6.0.0"; mkPlatformInfo "ios" "4.3.0"]
  /\ platforms_of_line
       ("Installed platforms: "
          ++ JS.join "," ["  android 6.0.0 "; (" ios 4.3.0" ++ String carriage_return "")%string])
     = (platform_of_entry (JS.trim "  android 6.0.0 ")
        ++ flat_map (fun entry => platform_of_entry (JS.trim entry))
             [(" ios 4.3.0" ++ String carriage_return "")%string])%list
  /\ JS.trim (" " ++ "ios 4.3.0" ++ String " " (String carriage_return ""))
     = "ios 4.3.0"
  /\ JS.trim (String " " (String carriage_return "")) = ""
  /\ platform_of_entry (platform_entry "android" "6.0.0")
     = [mkPlatformInfo "android" "6.0.0"]
  /\ platform_of_entry ("x" ++ String carriage_return "ios 4.3.0")
     = platform_of_entry "ios 4.3.0"
  /\ platform_of_entry "browser" = [].
Proof.
  split; [|split; [|split; [|split; [|split; [|split]]]]].
  - etransitivity.
    + apply (proj1 (proj2 (proj2
               (getPlatforms_parses_installed_lines
                  (JS.join (String newline "")
                     ["Available platforms: amazon-fireos 3.6.3, browser 4.1.0";
                      "Installed platforms: "
                        ++ JS.join "," ["  android 6.0.0 "; (" ios 4.3.0" ++ String carriage_return "")%string];
                      ""]))))
               "Available platforms: amazon-fireos 3.6.3, browser 4.1.0"
               ["Installed platforms: "
                  ++ JS.join "," ["  android 6.0.0 "; (" ios 4.3.0" ++ String carriage_return "")%string];
                ""]);
        [|reflexivity].
      repeat constructor.
    + vm_compute. reflexivity.
  - apply (proj1 (proj2 (proj2 (proj2 (proj2
             (getPlatforms_parses_installed_lines ""))))) 
             "  android 6.0.0 "
             [(" ios 4.3.0" ++ String carriage_return "")%string]).
    repeat constructor.
  - apply (proj1 (proj2 (proj2 (proj2 (proj2 (proj2
             (getPlatforms_parses_installed_lines "")))))) 
             " " "ios 4.3.0" (String " " (String carriage_return "")));
      reflexivity.
  - apply (proj1 (proj2 (proj2 (proj2 (proj2 (proj2 (proj2
             (getPlatforms_parses_installed_lines ""))))))) 
             (String " " (String carriage_return ""))).
    reflexivity.
  - apply (proj1 (proj2 (proj2 (proj2 (proj2 (proj2 (proj2 (proj2
             (getPlatforms_parses_installed_lines "")))))))) 
             "android" "6.0.0").
    reflexivity.
  - apply (proj1 (proj2 (proj2 (proj2 (proj2 (proj2 (proj2 (proj2 (proj2
             (getPlatforms_parses_installed_lines ""))))))))) 
             "x" carriage_return "ios 4.3.0");
      reflexivity.
  - apply (proj1 (proj2 (proj2 (proj2 (proj2 (proj2 (proj2 (proj2 (proj2
             (proj2 (getPlatforms_parses_installed_lines "")))))))))) 
             "browser").
    reflexivity.
Defined.
